(** * Search Logger plugin for Obsidian

    The ingestion endpoint, the recent-query buffer, the document writer and
    the rebinding of the listener from the settings tab.

    Sources embedded here:
    - [settings.ts]: the constants and [validatePort];
    - [loggingServer.ts]: [createHttpHandler];
    - [searchLoggerSettingTab.ts] (the file that follows the ESLint
      configuration in [eslint.config.mjs]): the [onChange] callback of the
      port field;
    - [main.ts]: the part of [onload] that starts the listener, and [onunload].

    And, for the further properties at the end of the file:
    - [settings.ts]: [getLogFileNameFrom];
    - [main.ts]: the accessors of [logFileName], [validateLogFileName],
      [initLogFile] and the part of [onload] before the listener starts;
    - [searchLoggerSettingTab.ts]: the [onChange] callback of the name field.

    The host (Obsidian's vault, Node's [http] servers, the JavaScript values that
    [JSON.parse] returns) is modelled at the interface the plugin uses. A
    request is served from its first step to its answer before the next one
    starts: two requests that interleave at an [await] are outside the model. *)

From Stdlib Require Import ZArith QArith String Ascii List Bool Lia.
From stdpp Require Import gmap strings list fin_maps pretty.
Import ListNotations.

#[local] Open Scope Z_scope.

(** ** JavaScript values *)

Module Js.

(** A JavaScript number. The finite doubles are rationals; the model admits every
    rational, so what holds of all of them holds of the doubles. The two zeros
    are one value here: the operations below do not tell them apart. *)
Inductive number : Type :=
| NaN
| Infinity (negative : bool)
| Finite (q : Q).

Definition of_Z (z : Z) : number := Finite (inject_Z z).

(** [Number.isInteger]: finite, with no fractional part. *)
Definition Number_isInteger (n : number) : bool :=
  match n with
  | Finite q => Pos.eqb (Qden (Qred q)) 1
  | _ => false
  end.

(** The [<] operator on two numbers; every comparison with [NaN] is false. *)
Definition lt (a b : number) : bool :=
  match a, b with
  | NaN, _ | _, NaN => false
  | Infinity sa, Infinity sb => sa && negb sb
  | Infinity sa, Finite _ => sa
  | Finite _, Infinity sb => negb sb
  | Finite p, Finite q => negb (Qle_bool q p)
  end.

Definition gt (a b : number) : bool := lt b a.

(** Equality of numbers as [SameValueZero] sees it: [NaN] equals itself. *)
Definition number_eqb (a b : number) : bool :=
  match a, b with
  | NaN, NaN => true
  | Infinity sa, Infinity sb => Bool.eqb sa sb
  | Finite p, Finite q => Qeq_bool p q
  | _, _ => false
  end.

(** The values the handler meets: what [JSON.parse] returns (null, booleans,
    numbers, strings, arrays, plain objects), and [undefined], which a
    destructuring yields for a missing property. An object lists its own
    properties; a key bound twice reads as its first binding. *)
#[local] Set Warnings "-register-all".
Inductive JsValue : Type :=
| JUndefined
| JNull
| JBool (b : bool)
| JNumber (n : number)
| JString (s : string)
| JArray (elements : list JsValue)
| JObject (properties : list (string * JsValue)).

Fixpoint own_property (key : string) (props : list (string * JsValue))
  : option JsValue :=
  match props with
  | [] => None
  | (k, v) :: rest => if String.eqb k key then Some v else own_property key rest
  end.

(** [SameValueZero], the comparison of [Array.prototype.includes]. Arrays and
    objects compare by identity: a value that the current request's
    [JSON.parse] allocated is never the object an earlier request stored. *)
Definition SameValueZero (x y : JsValue) : bool :=
  match x, y with
  | JUndefined, JUndefined => true
  | JNull, JNull => true
  | JBool a, JBool b => Bool.eqb a b
  | JNumber a, JNumber b => number_eqb a b
  | JString a, JString b => String.eqb a b
  | _, _ => false
  end.

(** [array.includes(x)] *)
Definition includes (array : list JsValue) (x : JsValue) : bool :=
  existsb (fun element => SameValueZero element x) array.

Section ToString.

(** [Number::toString], the shortest decimal that reads back as the double;
    it is a parameter of the development. *)
Variable Number_toString : number -> string.

(** [ToString], as a template literal applies it to a substitution; [None]
    is a thrown [TypeError]. A plain object prints through
    [Object.prototype.toString] unless it has an own property [toString]:
    a JSON value is never callable, so [OrdinaryToPrimitive] then goes on to
    [valueOf], which is either an own, not callable, property or
    [Object.prototype.valueOf], which returns the object itself: no
    primitive is reached. An array prints through [join], where
    [undefined] and [null] elements print as the empty string. *)
Fixpoint ToString (v : JsValue) : option string :=
  match v with
  | JUndefined => Some "undefined"
  | JNull => Some "null"
  | JBool true => Some "true"
  | JBool false => Some "false"
  | JNumber n => Some (Number_toString n)
  | JString s => Some s
  | JArray elements =>
      (fix join (l : list JsValue) : option string :=
         match l with
         | [] => Some ""
         | e :: rest =>
             let element :=
               match e with
               | JUndefined | JNull => Some ""
               | _ => ToString e
               end in
             match rest with
             | [] => element
             | _ :: _ =>
                 match element, join rest with
                 | Some s, Some r => Some (s +:+ "," +:+ r)
                 | _, _ => None
                 end
             end
         end) elements
  | JObject props =>
      match own_property "toString" props with
      | Some _ => None
      | None => Some "[object Object]"
      end
  end.

End ToString.

End Js.

(** ** settings.ts *)

Module Settings.
Import Js.

Definition MAX_RECENT : nat := 3.
Definition MIN_PORT : number := of_Z 1024.
Definition MAX_PORT : number := of_Z 65535.

Section WithTranslations.

(** [t(key, vars)] of [i18n.ts]: the message of [key] in the current
    language with [vars] substituted. Its tables ([lang/en.json],
    [lang/ja.json]) are not among the sources, so it is a parameter. *)
Variable t : string -> list (string * JsValue) -> string.

Definition validatePort (port : number) : option string :=
  if negb (Number_isInteger port) then
    Some (t "settings.error.port_is_int" [])
  else if lt port MIN_PORT || gt port MAX_PORT then
    Some (t "settings.error.port_out_range"
            [("PORT", JNumber port);
             ("MIN_PORT", JNumber MIN_PORT);
             ("MAX_PORT", JNumber MAX_PORT)])
  else None.

End WithTranslations.

End Settings.

(** ** loggingServer.ts *)

Module LoggingServer.
Import Js Settings.

(** *** The host: Obsidian's vault and Node's request and response *)

(** What [app.vault.getAbstractFileByPath] finds at a path: a note with its
    text, or a folder. *)
Inductive TAbstractFile : Type :=
| TFile (data : string)
| TFolder.

(** The four asynchronous operations the handler awaits. *)
Inductive VaultOp : Type := Create | Read | Modify | Append.

(** What a [try] block can catch here. *)
Inductive Error : Type :=
| SyntaxError             (* JSON.parse on a malformed text *)
| TypeError               (* destructuring null; ToString without a primitive *)
| Rejected (op : VaultOp) (* a vault promise that rejects *).

(** Everything the handler does to its surroundings, in the order it does it. *)
Inductive Effect : Type :=
| VaultCreate (path data : string)
| VaultRead (path : string)
| VaultModify (path data : string)
| VaultAppend (path data : string)
| ConsoleWarn (message : string)
| ConsoleError (message : string) (e : Error)
| Push (query : JsValue)          (* recentQueries.push(query) *)
| Shift                           (* recentQueries.shift() *)
| WriteHead (statusCode : nat) (headers : list (string * string))
| ResEnd.

(** The two objects the handler mutates: the vault and the array
    [recentQueries], which the plugin owns and every handler it creates
    shares. *)
Record World : Type := {
  vault : gmap string TAbstractFile;
  recentQueries : list JsValue
}.

(** The body of a request once all of its chunks are in, given by what
    [JSON.parse] makes of the text: a thrown [SyntaxError] or a value. *)
Inductive Body : Type :=
| Malformed
| Json (v : JsValue).

Record IncomingMessage : Type := {
  method : string;
  url : string;
  body : Body
}.

(** [LogContext]. [app] is represented by the vault of the [World] and by
    [rejects], which says which vault operations reject while this request is
    served; the two getters are given by the values they return for it. *)
Record LogContext : Type := {
  rejects : VaultOp -> bool;
  getLogFileName : string;
  getPrependMode : bool
}.

(** *** Control flow: state, effects, [throw] and [return] *)

Inductive Completion (A : Type) : Type :=
| Normal (a : A)
| Return
| Throw (e : Error).
Arguments Normal {A} a.
Arguments Return {A}.
Arguments Throw {A} e.

Record Outcome (A : Type) : Type := {
  completion : Completion A;
  after : World;
  effects : list Effect
}.
Arguments completion {A} _.
Arguments after {A} _.
Arguments effects {A} _.

Definition M (A : Type) : Type := World -> Outcome A.

#[local] Instance M_ret : MRet M := fun A a w =>
  {| completion := Normal a; after := w; effects := [] |}.

#[local] Instance M_bind : MBind M := fun A B k m w =>
  match m w with
  | {| completion := Normal a; after := w'; effects := done |} =>
      match k a w' with
      | {| completion := c; after := w''; effects := more |} =>
          {| completion := c; after := w''; effects := done ++ more |}
      end
  | {| completion := Return; after := w'; effects := done |} =>
      {| completion := Return; after := w'; effects := done |}
  | {| completion := Throw e; after := w'; effects := done |} =>
      {| completion := Throw e; after := w'; effects := done |}
  end.

Definition throw {A} (e : Error) : M A := fun w =>
  {| completion := Throw e; after := w; effects := [] |}.

(** [return;] inside the function body *)
Definition return_ {A} : M A := fun w =>
  {| completion := Return; after := w; effects := [] |}.

(** [try { m } catch (e) { handler e }]: a [return] leaves the block untouched. *)
Definition try_catch {A} (m : M A) (handler : Error -> M A) : M A := fun w =>
  match m w with
  | {| completion := Throw e; after := w'; effects := done |} =>
      match handler e w' with
      | {| completion := c; after := w''; effects := more |} =>
          {| completion := c; after := w''; effects := done ++ more |}
      end
  | r => r
  end.

Definition emit (e : Effect) : M unit := fun w =>
  {| completion := Normal tt; after := w; effects := [e] |}.

Definition get_world : M World := fun w =>
  {| completion := Normal w; after := w; effects := [] |}.

Definition put_world (w' : World) : M unit := fun _ =>
  {| completion := Normal tt; after := w'; effects := [] |}.

Definition set_vault (v : gmap string TAbstractFile) (w : World) : World :=
  {| vault := v; recentQueries := recentQueries w |}.

Definition set_recentQueries (l : list JsValue) (w : World) : World :=
  {| vault := vault w; recentQueries := l |}.

(** *** The vault operations *)

Definition getAbstractFileByPath (path : string) : M (option TAbstractFile) :=
  w ← get_world; mret (vault w !! path).

(** An awaited vault operation: issued, then rejected or settled. *)
Definition await (ctx : LogContext) (op : VaultOp) : M unit :=
  if rejects ctx op then throw (Rejected op) else mret tt.

Definition vault_create (ctx : LogContext) (path data : string) : M unit :=
  emit (VaultCreate path data);;
  await ctx Create;;
  w ← get_world;
  put_world (set_vault (<[path := TFile data]> (vault w)) w).

Definition vault_read (ctx : LogContext) (path : string) : M string :=
  emit (VaultRead path);;
  await ctx Read;;
  w ← get_world;
  match vault w !! path with
  | Some (TFile data) => mret data
  | _ => throw (Rejected Read)
  end.

Definition vault_modify (ctx : LogContext) (path data : string) : M unit :=
  emit (VaultModify path data);;
  await ctx Modify;;
  w ← get_world;
  put_world (set_vault (<[path := TFile data]> (vault w)) w).

Definition vault_append (ctx : LogContext) (path data : string) : M unit :=
  emit (VaultAppend path data);;
  await ctx Append;;
  w ← get_world;
  match vault w !! path with
  | Some (TFile old) =>
      put_world (set_vault (<[path := TFile (old +:+ data)]> (vault w)) w)
  | _ => throw (Rejected Append)
  end.

(** *** The array [recentQueries] *)

Definition push (query : JsValue) : M unit :=
  emit (Push query);;
  w ← get_world;
  put_world (set_recentQueries (recentQueries w ++ [query]) w).

Definition shift : M unit :=
  emit Shift;;
  w ← get_world;
  put_world (set_recentQueries (tail (recentQueries w)) w).

(** *** The response *)

Definition CORS : list (string * string) :=
  [("Access-Control-Allow-Origin", "*")].

Definition CORS_preflight : list (string * string) :=
  [("Access-Control-Allow-Origin", "*");
   ("Access-Control-Allow-Methods", "POST, OPTIONS");
   ("Access-Control-Allow-Headers", "Content-Type")].

Definition writeHead (statusCode : nat) (headers : list (string * string))
  : M unit := emit (WriteHead statusCode headers).

Definition res_end : M unit := emit ResEnd.

(** *** The handler *)

Definition JSON_parse (b : Body) : M JsValue :=
  match b with
  | Malformed => throw SyntaxError
  | Json v => mret v
  end.

Definition or_throw {A} (e : Error) (o : option A) : M A :=
  match o with
  | Some a => mret a
  | None => throw e
  end.

(** [const { query, url, timestamp } = value]: [null] and [undefined] cannot
    be destructured ([None]: a [TypeError]); any other value is read at the
    three keys, which only an object's own properties can carry (no prototype
    has them). *)
Definition destructure (value : JsValue)
  : option (JsValue * JsValue * JsValue) :=
  match value with
  | JNull | JUndefined => None
  | JObject props =>
      let get key := default JUndefined (own_property key props) in
      Some (get "query", get "url", get "timestamp")
  | _ => Some (JUndefined, JUndefined, JUndefined)
  end.

Definition TAB : string := String "009"%char EmptyString.
Definition LF : string := String "010"%char EmptyString.

Section Handler.

Variable Number_toString : number -> string.

(** The template literal of the log line; its substitutions are converted
    from left to right, and a conversion that throws ends it. *)
Definition line_of (timestamp query url : JsValue) : option string :=
  ts ← ToString Number_toString timestamp;
  q ← ToString Number_toString query;
  u ← ToString Number_toString url;
  Some ("- " +:+ ts +:+ TAB +:+ "— " +:+ q +:+ " [↗️](" +:+ u +:+ ")" +:+ LF).

(** The listener of the request's [end] event. *)
Definition on_end (ctx : LogContext) (b : Body) : M unit :=
  try_catch
    ('(query, url, timestamp) ←
       (value ← JSON_parse b; or_throw TypeError (destructure value));
     w ← get_world;
     if includes (recentQueries w) query then
       writeHead 200 CORS;;
       res_end;;
       return_
     else
       let effective := getLogFileName ctx in
       line ← or_throw TypeError (line_of timestamp query url);
       af ← getAbstractFileByPath effective;
       match af with
       | None => vault_create ctx effective line
       | Some (TFile _) =>
           if getPrependMode ctx then
             oldContent ← vault_read ctx effective;
             let newContent := line +:+ oldContent in
             vault_modify ctx effective newContent
           else
             vault_append ctx effective line
       | Some TFolder =>
           emit (ConsoleWarn ("SearchLogger: “" +:+ effective
                                +:+ "” exists but is a folder. Skipping."))
       end;;
       push query;;
       w ← get_world;
       (if (MAX_RECENT <? length (recentQueries w))%nat then shift
        else mret tt);;
       writeHead 200 CORS)
    (fun e =>
       emit (ConsoleError "SearchLogger: failed to parse/write:" e);;
       writeHead 400 CORS);;
  res_end.

Definition createHttpHandler (ctx : LogContext) (req : IncomingMessage)
  : M unit :=
  if String.eqb (method req) "OPTIONS" then
    writeHead 200 CORS_preflight;;
    res_end;;
    return_
  else if String.eqb (method req) "POST" && String.eqb (url req) "/log" then
    on_end ctx (body req)
  else
    writeHead 404 CORS;;
    res_end.

(** One request served from start to finish. *)
Definition handle (ctx : LogContext) (req : IncomingMessage) (w : World)
  : Outcome unit := createHttpHandler ctx req w.

End Handler.

(** *** Reading an outcome *)

(** The status of the response: that of the [writeHead] call. *)
Fixpoint statusCode (es : list Effect) : option nat :=
  match es with
  | [] => None
  | WriteHead code _ :: _ => Some code
  | _ :: rest => statusCode rest
  end.

Definition vault_effect (e : Effect) : bool :=
  match e with
  | VaultCreate _ _ | VaultRead _ | VaultModify _ _ | VaultAppend _ _ => true
  | _ => false
  end.

Definition buffer_effect (e : Effect) : bool :=
  match e with
  | Push _ | Shift => true
  | _ => false
  end.

Definition warning (e : Effect) : bool :=
  match e with
  | ConsoleWarn _ => true
  | _ => false
  end.

End LoggingServer.

(** ** main.ts and searchLoggerSettingTab.ts: the listener and its rebinding *)

Module SettingTab.
Import Js Settings.

(** An error object as the [catch] block reads it. *)
Record NodeError : Type := {
  code : string;
  message : string
}.

(** What lies outside the plugin and stays fixed while a callback runs:
    [bind_error p] is the error another process's socket or the operating
    system raises when this process binds [p] ([None]: the port is free for
    it), [saveData_error] the rejection of [saveData], if any. *)
Record Outside : Type := {
  bind_error : number -> option NodeError;
  saveData_error : option NodeError
}.

(** The plugin object, the port field of the settings tab, and the servers
    of this process that listen, each with its port. A server is known by
    the order of its creation. *)
Record State : Type := {
  settings_port : number;            (* this.plugin.settings.port *)
  server : option nat;               (* this.plugin.server *)
  listening : list (nat * number);
  created : nat;
  portErrorEl : string;              (* text of the inline error *)
  text_value : option string         (* value set into the field, if any *)
}.

Definition set_server (s : option nat) (st : State) : State :=
  {| settings_port := settings_port st; server := s;
     listening := listening st; created := created st;
     portErrorEl := portErrorEl st; text_value := text_value st |}.

Definition set_settings_port (p : number) (st : State) : State :=
  {| settings_port := p; server := server st;
     listening := listening st; created := created st;
     portErrorEl := portErrorEl st; text_value := text_value st |}.

Definition set_listening (l : list (nat * number)) (st : State) : State :=
  {| settings_port := settings_port st; server := server st;
     listening := l; created := created st;
     portErrorEl := portErrorEl st; text_value := text_value st |}.

Definition setText (s : string) (st : State) : State :=
  {| settings_port := settings_port st; server := server st;
     listening := listening st; created := created st;
     portErrorEl := s; text_value := text_value st |}.

Definition setValue (s : string) (st : State) : State :=
  {| settings_port := settings_port st; server := server st;
     listening := listening st; created := created st;
     portErrorEl := portErrorEl st; text_value := Some s |}.

(** [createServer(handler)]: a new server, not listening. *)
Definition createServer (st : State) : nat * State :=
  (created st,
   {| settings_port := settings_port st; server := server st;
      listening := listening st; created := S (created st);
      portErrorEl := portErrorEl st; text_value := text_value st |}).

Definition port_taken (p : number) (l : list (nat * number)) : bool :=
  existsb (fun e => number_eqb (snd e) p) l.

Definition EADDRINUSE : NodeError :=
  {| code := "EADDRINUSE"; message := "listen EADDRINUSE: address already in use" |}.

(** [s.listen(p)]: the ['error'] event with its error, or ['listening']. *)
Definition listen (out : Outside) (s : nat) (p : number) (st : State)
  : option NodeError * State :=
  match bind_error out p with
  | Some err => (Some err, st)
  | None =>
      if port_taken p (listening st) then (Some EADDRINUSE, st)
      else (None, set_listening ((s, p) :: listening st) st)
  end.

(** [s.close()]: the listening socket of [s], if it has one, is released. *)
Definition close (s : nat) (st : State) : State :=
  set_listening
    (List.filter (fun e => negb (Nat.eqb (fst e) s)) (listening st)) st.

(** The service answers on [p]: a server of the plugin listens there. *)
Definition reachable (p : number) (st : State) : bool :=
  port_taken p (listening st).

(** *** main.ts *)

(** [onload], from [createServer] to [listen]: without a listener for
    ['error'], a failed bind leaves the server object in place, not
    listening. *)
Definition onload (out : Outside) (st : State) : State :=
  let port := settings_port st in
  let '(s, st) := createServer st in
  let st := set_server (Some s) st in
  snd (listen out s port st).

Definition onunload (st : State) : State :=
  match server st with
  | Some s => set_server None (close s st)
  | None => st
  end.

(** *** searchLoggerSettingTab.ts *)

Definition isNaN (n : number) : bool :=
  match n with
  | NaN => true
  | _ => false
  end.

(** A string or [null] used as a condition. *)
Definition truthy (o : option string) : bool :=
  match o with
  | Some s => negb (String.eqb s "")
  | None => false
  end.

Section PortField.

Variable t : string -> list (string * JsValue) -> string.
Variable Number_toString : number -> string.

(** The [catch] block of the callback. The callback that [listen] runs
    once the old server listens again is taken together with the call. *)
Definition rollback (out : Outside) (portCandidate oldPort : number)
    (oldServer newServer : option nat) (err : NodeError) (st : State)
  : State :=
  let msg :=
    if String.eqb (code err) "EADDRINUSE" then
      t "settings.error.port_used" [("PORT", JNumber portCandidate)]
    else
      t "settings.error.port_openfail"
        [("PORT", JNumber portCandidate); ("MSG", JString (message err))] in
  let st := setText ("⚠ " +:+ msg) st in
  let st :=
    match newServer with
    | Some s => close s st
    | None => st
    end in
  let st :=
    match oldServer with
    | Some s =>
        match listen out s oldPort st with
        | (None, st') => set_server (Some s) st'
        | (Some _, st') => st'
        end
    | None => st
    end in
  setValue (Number_toString oldPort) st.

(** The [onChange] callback of the port field, from the result [parsed] of
    [parseInt(rawValue.trim(), 10)] on. *)
Definition onChange (out : Outside) (parsed : number) (st : State) : State :=
  let portCandidate := if isNaN parsed then of_Z (-1) else parsed in
  let rangeError := validatePort t portCandidate in
  if truthy rangeError then
    setText ("⚠ " +:+ default "" rangeError) st
  else
    let st := setText "" st in
    let oldPort := settings_port st in
    let oldServer := server st in
    let st :=
      match oldServer with
      | Some s => set_server None (close s st)
      | None => st
      end in
    let '(newServer, st) := createServer st in
    match listen out newServer portCandidate st with
    | (Some err, st) =>
        rollback out portCandidate oldPort oldServer (Some newServer) err st
    | (None, st) =>
        let st := set_server (Some newServer) st in
        let st := set_settings_port portCandidate st in
        match saveData_error out with
        | Some err =>
            rollback out portCandidate oldPort oldServer (Some newServer) err st
        | None => setText "" st
        end
    end.

End PortField.

End SettingTab.

(** ** Vocabulary of the properties *)

Module Props.
Import Js Settings LoggingServer.
#[local] Open Scope nat_scope.

(** [p] is the integer [z]. *)
Definition is_integer_value (p : number) (z : Z) : Prop :=
  match p with
  | Finite q => (q == inject_Z z)%Q
  | _ => False
  end.

(** A [POST /log] request with body [b]. *)
Definition post_log (b : Body) : IncomingMessage :=
  {| method := "POST"; url := "/log"; body := b |}.

(** The status the handler answers with. *)
Definition status (r : Outcome unit) : option nat := statusCode (effects r).

(** A value of the expected shape [{query: string, url: string,
    timestamp: number}], with its three fields. *)
Definition is_event (v : JsValue) (query url : string) (timestamp : number)
  : Prop :=
  exists props,
    v = JObject props /\
    own_property "query" props = Some (JString query) /\
    own_property "url" props = Some (JString url) /\
    own_property "timestamp" props = Some (JNumber timestamp).

(** The line of an event. *)
Definition event_line (Number_toString : number -> string)
    (timestamp : number) (query url : string) : string :=
  "- " +:+ Number_toString timestamp +:+ TAB +:+ "— " +:+ query
       +:+ " [↗️](" +:+ url +:+ ")" +:+ LF.

(** The vault operation that the commit awaits in world [w] rejects. *)
Definition commit_rejects (ctx : LogContext) (w : World) : bool :=
  match vault w !! getLogFileName ctx with
  | None => rejects ctx Create
  | Some (TFile _) =>
      if getPrependMode ctx then rejects ctx Read || rejects ctx Modify
      else rejects ctx Append
  | Some TFolder => false
  end.

(** The operations that write a note. *)
Definition write_effect (e : Effect) : bool :=
  match e with
  | VaultCreate _ _ | VaultModify _ _ | VaultAppend _ _ => true
  | _ => false
  end.

Definition writes (es : list Effect) : nat := length (filter write_effect es).

(** In [es], every effect of kind [a] comes before every effect of kind [b]. *)
Definition precedes (a b : Effect -> bool) (es : list Effect) : Prop :=
  forall i j x y,
    es !! i = Some x -> es !! j = Some y ->
    a x = true -> b y = true -> i < j.

(** The answer to a request whose query is in the buffer: 200 and nothing
    else. *)
Definition skipped (w : World) : Outcome unit :=
  {| completion := Return; after := w; effects := [WriteHead 200 CORS; ResEnd] |}.

(** The test [recentQueries.includes(query)] that a request meets in [w]. *)
Definition treated_as_duplicate (w : World) (req : IncomingMessage) : bool :=
  match body req with
  | Json v =>
      match destructure v with
      | Some (query, _, _) => includes (recentQueries w) query
      | None => false
      end
  | Malformed => false
  end.

(** The request sends the query [q] in an event. *)
Definition sends (req : IncomingMessage) (q : string) : Prop :=
  exists v u ts, req = post_log (Json v) /\ is_event v q u ts.

Section Sequences.

Variable Number_toString : number -> string.

(** Requests served one after the other, each with its context. *)
Definition run (reqs : list (LogContext * IncomingMessage)) (w : World)
  : World :=
  fold_left (fun w x => after (handle Number_toString (fst x) (snd x) w))
            reqs w.

Fixpoint never_duplicate (reqs : list (LogContext * IncomingMessage))
    (w : World) : Prop :=
  match reqs with
  | [] => True
  | x :: rest =>
      treated_as_duplicate w (snd x) = false /\
      never_duplicate rest (after (handle Number_toString (fst x) (snd x) w))
  end.

End Sequences.

(** *** Inputs of the examples *)

(** A rendering of numbers for the examples. It is [Number::toString] on
    [NaN], on the infinities and on the integers of magnitude below 10^21,
    which print in plain decimal; the examples use no other number. *)
Definition decimal (n : number) : string :=
  match n with
  | NaN => "NaN"
  | Infinity false => "Infinity"
  | Infinity true => "-Infinity"
  | Finite q => pretty (Qnum q / Z.pos (Qden q))%Z
  end.

(** [t] when the tables have no entry for the key: the key itself. *)
Definition untranslated (key : string) (_ : list (string * JsValue)) : string :=
  key.

Definition cats : JsValue :=
  JObject [("query", JString "cats");
           ("url", JString "https://x/?q=cats");
           ("timestamp", JNumber (of_Z 1700000000000))].

Definition event_of (q : string) : JsValue :=
  JObject [("query", JString q);
           ("url", JString "https://x/?q=" );
           ("timestamp", JNumber (of_Z 1700000000000))].

Definition fresh : World := {| vault := ∅; recentQueries := [] |}.

Definition settled (_ : VaultOp) : bool := false.

Definition appending : LogContext :=
  {| rejects := settled; getLogFileName := "SearchLog.md";
     getPrependMode := false |}.

Definition prepending : LogContext :=
  {| rejects := settled; getLogFileName := "SearchLog.md";
     getPrependMode := true |}.

(** A log file name whose parent folder is missing: [create] rejects. *)
Definition orphan : LogContext :=
  {| rejects := fun op => match op with Create => true | _ => false end;
     getLogFileName := "missing/SearchLog.md";
     getPrependMode := false |}.

Definition with_note (data : string) : World :=
  {| vault := {[ "SearchLog.md" := TFile data ]}; recentQueries := [] |}.

Definition with_folder : World :=
  {| vault := {[ "SearchLog.md" := TFolder ]}; recentQueries := [] |}.

Definition three : list (LogContext * IncomingMessage) :=
  [(appending, post_log (Json (event_of "a")));
   (appending, post_log (Json (event_of "b")));
   (appending, post_log (Json (event_of "c")))].

(** Port 3000 belongs to another process; the plugin is loaded with the
    default port. *)
Definition port_3000_taken : SettingTab.Outside :=
  {| SettingTab.bind_error := fun p =>
       if number_eqb p (of_Z 3000) then Some SettingTab.EADDRINUSE else None;
     SettingTab.saveData_error := None |}.

Definition unloaded : SettingTab.State :=
  {| SettingTab.settings_port := of_Z 27123;
     SettingTab.server := None;
     SettingTab.listening := [];
     SettingTab.created := 0;
     SettingTab.portErrorEl := "";
     SettingTab.text_value := None |}.

Definition loaded : SettingTab.State :=
  SettingTab.onload port_3000_taken unloaded.

(** The plugin is bound: its server is the one listener of the process, on
    the port of the settings, which no one else holds. *)
Definition bound (out : SettingTab.Outside) (st : SettingTab.State) : Prop :=
  exists s,
    SettingTab.server st = Some s
    /\ SettingTab.listening st = [(s, SettingTab.settings_port st)]
    /\ SettingTab.bind_error out (SettingTab.settings_port st) = None.

End Props.

(** ** The paths of the [POST /log] handler *)

Module Paths.
Import Js Settings LoggingServer Props.
#[local] Open Scope nat_scope.

Definition folder_warning (path : string) : Effect :=
  ConsoleWarn ("SearchLogger: “" +:+ path +:+ "” exists but is a folder. Skipping.").

Definition parse_write_error (e : Error) : Effect :=
  ConsoleError "SearchLogger: failed to parse/write:" e.

(** The buffer once [q] is recorded in [buf], and the effects of recording. *)
Definition recorded (q : JsValue) (buf : list JsValue) : list JsValue :=
  if MAX_RECENT <? length (buf ++ [q]) then tail (buf ++ [q]) else buf ++ [q].

Definition recording (q : JsValue) (buf : list JsValue) : list Effect :=
  Push q :: (if MAX_RECENT <? length (buf ++ [q]) then [Shift] else []).

(** The [catch] block has run after the effects [done]. *)
Definition failed (done : list Effect) (e : Error) (w : World) : Outcome unit :=
  {| completion := Normal tt;
     after := w;
     effects := done ++ [parse_write_error e; WriteHead 400 CORS; ResEnd] |}.

(** The [try] block has run to its end: the commit [done] left the vault
    [v], and the query [q] is recorded. *)
Definition accepted (done : list Effect) (q : JsValue)
    (v : gmap string TAbstractFile) (w : World) : Outcome unit :=
  {| completion := Normal tt;
     after := {| vault := v; recentQueries := recorded q (recentQueries w) |};
     effects := done ++ recording q (recentQueries w)
                     ++ [WriteHead 200 CORS; ResEnd] |}.

(** The commit of the line [ln] in world [w]: its effects and either the
    error of the operation that rejects or the vault it leaves. *)
Inductive Committed (ctx : LogContext) (w : World) (ln : string)
  : list Effect -> Error + gmap string TAbstractFile -> Prop :=
| created :
    vault w !! getLogFileName ctx = None ->
    rejects ctx Create = false ->
    Committed ctx w ln [VaultCreate (getLogFileName ctx) ln]
      (inr (<[getLogFileName ctx := TFile ln]> (vault w)))
| create_rejected :
    vault w !! getLogFileName ctx = None ->
    rejects ctx Create = true ->
    Committed ctx w ln [VaultCreate (getLogFileName ctx) ln]
      (inl (Rejected Create))
| prepended old :
    vault w !! getLogFileName ctx = Some (TFile old) ->
    getPrependMode ctx = true ->
    rejects ctx Read = false ->
    rejects ctx Modify = false ->
    Committed ctx w ln
      [VaultRead (getLogFileName ctx);
       VaultModify (getLogFileName ctx) (ln +:+ old)]
      (inr (<[getLogFileName ctx := TFile (ln +:+ old)]> (vault w)))
| read_rejected old :
    vault w !! getLogFileName ctx = Some (TFile old) ->
    getPrependMode ctx = true ->
    rejects ctx Read = true ->
    Committed ctx w ln [VaultRead (getLogFileName ctx)] (inl (Rejected Read))
| modify_rejected old :
    vault w !! getLogFileName ctx = Some (TFile old) ->
    getPrependMode ctx = true ->
    rejects ctx Read = false ->
    rejects ctx Modify = true ->
    Committed ctx w ln
      [VaultRead (getLogFileName ctx);
       VaultModify (getLogFileName ctx) (ln +:+ old)]
      (inl (Rejected Modify))
| appended old :
    vault w !! getLogFileName ctx = Some (TFile old) ->
    getPrependMode ctx = false ->
    rejects ctx Append = false ->
    Committed ctx w ln [VaultAppend (getLogFileName ctx) ln]
      (inr (<[getLogFileName ctx := TFile (old +:+ ln)]> (vault w)))
| append_rejected old :
    vault w !! getLogFileName ctx = Some (TFile old) ->
    getPrependMode ctx = false ->
    rejects ctx Append = true ->
    Committed ctx w ln [VaultAppend (getLogFileName ctx) ln]
      (inl (Rejected Append))
| folder_skipped :
    vault w !! getLogFileName ctx = Some TFolder ->
    Committed ctx w ln [folder_warning (getLogFileName ctx)] (inr (vault w)).

(** The listener of [end] on body [b] in world [w]: every way through it. *)
Inductive Served (Number_toString : number -> string)
    (ctx : LogContext) (w : World) : Body -> Outcome unit -> Prop :=
| served_malformed :
    Served Number_toString ctx w Malformed (failed [] SyntaxError w)
| served_null v :
    destructure v = None ->
    Served Number_toString ctx w (Json v) (failed [] TypeError w)
| served_duplicate v q u ts :
    destructure v = Some (q, u, ts) ->
    includes (recentQueries w) q = true ->
    Served Number_toString ctx w (Json v) (skipped w)
| served_unprintable v q u ts :
    destructure v = Some (q, u, ts) ->
    includes (recentQueries w) q = false ->
    line_of Number_toString ts q u = None ->
    Served Number_toString ctx w (Json v) (failed [] TypeError w)
| served_accepted v q u ts ln done v' :
    destructure v = Some (q, u, ts) ->
    includes (recentQueries w) q = false ->
    line_of Number_toString ts q u = Some ln ->
    Committed ctx w ln done (inr v') ->
    Served Number_toString ctx w (Json v) (accepted done q v' w)
| served_rejected v q u ts ln done e :
    destructure v = Some (q, u, ts) ->
    includes (recentQueries w) q = false ->
    line_of Number_toString ts q u = Some ln ->
    Committed ctx w ln done (inl e) ->
    Served Number_toString ctx w (Json v) (failed done e w).

(** The answers to the requests that are not [POST /log]. *)
Definition preflight (w : World) : Outcome unit :=
  {| completion := Return; after := w;
     effects := [WriteHead 200 CORS_preflight; ResEnd] |}.

Definition not_found (w : World) : Outcome unit :=
  {| completion := Normal tt; after := w;
     effects := [WriteHead 404 CORS; ResEnd] |}.

End Paths.

(** ** String methods *)

Module Str.

(** A string is its UTF-8 bytes. The methods below work on the list of bytes
    and are wrapped for [string] at the end. *)

Definition code (c : ascii) : N := N_of_ascii c.

(** White space and line terminators of ECMAScript, by their UTF-8 encoding.
    One byte: U+0009 to U+000D and U+0020. *)
Definition ws1 (c : ascii) : bool :=
  ((9 <=? code c) && (code c <=? 13) || (code c =? 32))%N.

(** Two bytes: U+00A0. *)
Definition ws2 (a b : ascii) : bool :=
  ((code a =? 194) && (code b =? 160))%N.

(** Three bytes: U+1680; U+2000 to U+200A, U+2028, U+2029, U+202F; U+205F;
    U+3000; U+FEFF. *)
Definition ws3 (a b c : ascii) : bool :=
  ((code a =? 225) && (code b =? 154) && (code c =? 128)
   || (code a =? 226) && (code b =? 128)
      && ((128 <=? code c) && (code c <=? 138)
          || (code c =? 168) || (code c =? 169) || (code c =? 175))
   || (code a =? 226) && (code b =? 129) && (code c =? 159)
   || (code a =? 227) && (code b =? 128) && (code c =? 128)
   || (code a =? 239) && (code b =? 187) && (code c =? 191))%N.

(** Drop the white space at the head of [l]; [w2] and [w3] recognise the
    code points of two and three bytes, in the order the bytes come. *)
Fixpoint strip (w2 : ascii -> ascii -> bool)
    (w3 : ascii -> ascii -> ascii -> bool) (l : list ascii) : list ascii :=
  match l with
  | [] => []
  | a :: r1 =>
      if ws1 a then strip w2 w3 r1
      else
        match r1 with
        | [] => l
        | b :: r2 =>
            if w2 a b then strip w2 w3 r2
            else
              match r2 with
              | [] => l
              | c :: r3 => if w3 a b c then strip w2 w3 r3 else l
              end
        end
  end.

Definition trimStart (l : list ascii) : list ascii := strip ws2 ws3 l.

(** At the end the bytes are met last first. *)
Definition trimEnd (l : list ascii) : list ascii :=
  rev (strip (fun a b => ws2 b a) (fun a b c => ws3 c b a) (rev l)).

Definition trim_bytes (l : list ascii) : list ascii := trimEnd (trimStart l).

(** [toLowerCase] on the letters A to Z. Every other code point keeps its
    bytes: Unicode lower-casing produces the characters [.], [m] and [d] from
    [.], [M], [m], [D] and [d] only, so the one use of the method here, the
    test that a name ends with [.md], does not depend on the rest. *)
Definition lower (c : ascii) : ascii :=
  if ((65 <=? code c) && (code c <=? 90))%N then ascii_of_N (code c + 32)
  else c.

Definition toLowerCase_bytes (l : list ascii) : list ascii := map lower l.

Fixpoint eqb_bytes (l l' : list ascii) : bool :=
  match l, l' with
  | [], [] => true
  | a :: r, b :: r' => Ascii.eqb a b && eqb_bytes r r'
  | _, _ => false
  end.

(** [l.endsWith(suffix)] *)
Definition endsWith_bytes (l suffix : list ascii) : bool :=
  (length suffix <=? length l)%nat
  && eqb_bytes (drop (length l - length suffix) l) suffix.

(** [l.slice(0, -n)] *)
Definition slice_to_end_minus (n : nat) (l : list ascii) : list ascii :=
  take (length l - n) l.

(** [l.split(sep)] for a separator of one byte. *)
Fixpoint split_bytes (sep : ascii) (l : list ascii) : list (list ascii) :=
  match l with
  | [] => [[]]
  | c :: r =>
      if Ascii.eqb c sep then [] :: split_bytes sep r
      else
        match split_bytes sep r with
        | p :: ps => (c :: p) :: ps
        | [] => [[c]]
        end
  end.

(** [parts.join(sep)] *)
Fixpoint join_bytes (sep : ascii) (parts : list (list ascii)) : list ascii :=
  match parts with
  | [] => []
  | [p] => p
  | p :: ps => p ++ sep :: join_bytes sep ps
  end.

Definition bytes (s : string) : list ascii := list_ascii_of_string s.
Definition of_bytes (l : list ascii) : string := string_of_list_ascii l.

Definition trim (s : string) : string := of_bytes (trim_bytes (bytes s)).

Definition toLowerCase (s : string) : string :=
  of_bytes (toLowerCase_bytes (bytes s)).

Definition endsWith (s suffix : string) : bool :=
  endsWith_bytes (bytes s) (bytes suffix).

Definition slice_0 (n : nat) (s : string) : string :=
  of_bytes (slice_to_end_minus n (bytes s)).

Definition split (sep : ascii) (s : string) : list string :=
  map of_bytes (split_bytes sep (bytes s)).

Definition join (sep : ascii) (parts : list string) : string :=
  of_bytes (join_bytes sep (map bytes parts)).

End Str.

(** ** settings.ts, the file name *)

Module FileNames.
Import Str.

Definition getLogFileNameFrom (input : string) : string :=
  let trimmed := trim input in
  if endsWith (toLowerCase trimmed) ".md" then trimmed else trimmed +:+ ".md".

End FileNames.

(** ** main.ts, the log file *)

Module Main.
Import Js Settings LoggingServer Str FileNames.

(** The plugin as far as the log file goes: the stem the user chose, the
    vault, the notices shown, the stem last saved with [saveData] and the
    inline error of the name field. *)
Record Plugin : Type := {
  logFileUserPref : string;
  files : gmap string TAbstractFile;
  notices : list string;
  saved : option string;
  fileErrorEl : string
}.

Definition set_logFileUserPref (s : string) (p : Plugin) : Plugin :=
  {| logFileUserPref := s; files := files p; notices := notices p;
     saved := saved p; fileErrorEl := fileErrorEl p |}.

Definition set_files (v : gmap string TAbstractFile) (p : Plugin) : Plugin :=
  {| logFileUserPref := logFileUserPref p; files := v; notices := notices p;
     saved := saved p; fileErrorEl := fileErrorEl p |}.

Definition Notice (s : string) (p : Plugin) : Plugin :=
  {| logFileUserPref := logFileUserPref p; files := files p;
     notices := notices p ++ [s];
     saved := saved p; fileErrorEl := fileErrorEl p |}.



(** [get logFileName()] *)
Definition logFileName (p : Plugin) : string :=
  getLogFileNameFrom (logFileUserPref p).

(** [set logFileName(name)] *)
Definition set_logFileName (name : string) (p : Plugin) : Plugin :=
  let trimmed := trim name in
  set_logFileUserPref
    (if endsWith (toLowerCase trimmed) ".md" then slice_0 3 trimmed
     else trimmed) p.

Section WithTranslations.

Variable t : string -> list (string * JsValue) -> string.

Definition validateLogFileName (p : Plugin) (name : string) : option string :=
  let trimmed := trim name in
  if String.eqb trimmed "" then
    Some (t "settings.error.note.name.rule1" [])
  else if endsWith trimmed "/" then
    Some (t "settings.error.note.name.rule2" [])
  else
    let parts := split "/" trimmed in
    let parentError :=
      if (1 <? length parts)%nat then
        let parentPath := join "/" (removelast parts) in
        match files p !! parentPath with
        | None =>
            Some (t "settings.error.note.folder.rule1"
                    [("PARENT", JString parentPath)])
        | Some TFolder => None
        | Some (TFile _) =>
            Some (t "settings.error.note.folder.rule2"
                    [("PARENT", JString parentPath)])
        end
      else None in
    match parentError with
    | Some e => Some e
    | None =>
        match files p !! trimmed with
        | Some TFolder =>
            Some (t "settings.error.note.name.rule3" [("PATH", JString trimmed)])
        | _ => None
        end
    end.

(** [initLogFile(path)]: the plugin afterwards and, when [create] rejects,
    the error that the [catch] block logs and throws again. *)
Definition initLogFile (create_rejects : bool) (path : string) (p : Plugin)
  : Plugin * option Error :=
  match files p !! path with
  | Some _ => (p, None)
  | None =>
      if create_rejects then (p, Some (Rejected Create))
      else
        (Notice (t "notice.newlog.saved" [("PATH", JString path)])
           (set_files (<[path := TFile ""]> (files p)) p),
         None)
  end.

(** [onload], the callback of [onLayoutReady] up to the start of the
    listener. An error thrown by [initLogFile] ends the callback there. *)
Definition onLayoutReady (out : SettingTab.Outside) (create_rejects : bool)
    (p : Plugin) (st : SettingTab.State) : Plugin * SettingTab.State :=
  let initialFileError := validateLogFileName p (logFileName p) in
  let '(p, thrown) :=
    if SettingTab.truthy initialFileError then
      (Notice ("SearchLogger ⚠ " +:+ default "" initialFileError) p, None)
    else initLogFile create_rejects (logFileName p) p in
  match thrown with
  | Some _ => (p, st)
  | None =>
      let initialPortError := validatePort t (SettingTab.settings_port st) in
      let p :=
        if SettingTab.truthy initialPortError then
          Notice ("SearchLogger ⚠ " +:+ default "" initialPortError) p
        else p in
      (p, SettingTab.onload out st)
  end.


End WithTranslations.

End Main.

(** ** Vocabulary of the properties of names *)

Module NameProps.
Import Js LoggingServer Str FileNames Main.

(** [l] begins with a white-space code point. *)
Definition ws_head (w2 : ascii -> ascii -> bool)
    (w3 : ascii -> ascii -> ascii -> bool) (l : list ascii) : bool :=
  match l with
  | [] => false
  | a :: r1 =>
      ws1 a
      || match r1 with
         | [] => false
         | b :: r2 =>
             w2 a b
             || match r2 with
                | [] => false
                | c :: _ => w3 a b c
                end
         end
  end.

(** No white space at either end of the bytes [l]. *)
Definition clean (l : list ascii) : Prop :=
  ws_head ws2 ws3 l = false
  /\ ws_head (fun a b => ws2 b a) (fun a b c => ws3 c b a) (rev l) = false.

Definition dot_md : list ascii := ["."; "m"; "d"]%char.

(** [s] has no white space at either end. *)
Definition trimmed (s : string) : Prop := trim s = s.

(** [s] ends with [.md], in any case of the letters. *)
Definition has_md (s : string) : bool := endsWith (toLowerCase s) ".md".

(** [s] has no slash. *)
Definition no_slash (s : string) : Prop := ~ In "/"%char (bytes s).

(** A plugin with nothing shown and nothing saved. *)
Definition plugin_with (pref : string) (v : gmap string TAbstractFile) : Plugin :=
  {| logFileUserPref := pref; files := v; notices := [];
     saved := None; fileErrorEl := "" |}.

End NameProps.

(** ** Vocabulary of the properties of the log *)

Module LogProps.
Import Js Settings LoggingServer Props.
#[local] Open Scope nat_scope.

(** The value that [JSON.parse] makes of an event. *)
Definition event (query url : string) (timestamp : number) : JsValue :=
  JObject [("query", JString query);
           ("url", JString url);
           ("timestamp", JNumber timestamp)].

(** The two calls that make the response. *)
Definition response_effect (e : Effect) : bool :=
  match e with
  | WriteHead _ _ | ResEnd => true
  | _ => false
  end.

(** [vault.create] is called. *)
Definition creation (e : Effect) : bool :=
  match e with
  | VaultCreate _ _ => true
  | _ => false
  end.

(** An array or an object: a value that is compared by identity. *)
Definition by_reference (v : JsValue) : bool :=
  match v with
  | JArray _ | JObject _ => true
  | _ => false
  end.

(** No vault operation rejects while the request is served. *)
Definition settles (ctx : LogContext) : Prop :=
  forall op, rejects ctx op = false.

(** The text of the note at [path]; nothing there reads as the empty text,
    which is what [create] starts from. *)
Definition text_at (path : string) (w : World) : string :=
  match vault w !! path with
  | Some (TFile data) => data
  | _ => ""
  end.

(** The events [evs], each sent as a [POST /log] request served under [ctx]. *)
Definition posts (ctx : LogContext) (evs : list (string * string * number))
  : list (LogContext * IncomingMessage) :=
  map (fun e => (ctx, post_log (Json (event e.1.1 e.1.2 e.2)))) evs.

Definition queries (evs : list (string * string * number)) : list string :=
  map (fun e => e.1.1) evs.

Definition lines (Number_toString : number -> string)
    (evs : list (string * string * number)) : list string :=
  map (fun e => event_line Number_toString e.2 e.1.1 e.1.2) evs.

(** The strings of [l], one after the other. *)
Definition text (l : list string) : string := fold_right String.append "" l.

(** The last [n] elements of [l]. *)
Definition last_n {A} (n : nat) (l : list A) : list A :=
  drop (length l - n) l.

(** Port edits, one after the other, each with what lies outside while its
    callback runs. *)
Definition edits (t : string -> list (string * JsValue) -> string)
    (Number_toString : number -> string)
    (es : list (SettingTab.Outside * number)) (st : SettingTab.State)
  : SettingTab.State :=
  fold_left (fun st e => SettingTab.onChange t Number_toString e.1 e.2 st) es st.

(** *** Inputs of the examples *)

Definition four : list (string * string * number) :=
  [("a", "https://x/?q=a", of_Z 1700000000001);
   ("b", "https://x/?q=b", of_Z 1700000000002);
   ("c", "https://x/?q=c", of_Z 1700000000003);
   ("d", "https://x/?q=d", of_Z 1700000000004)].

(** An event whose query is an array. *)
Definition listed : JsValue :=
  JObject [("query", JArray [JString "cats"; JString "dogs"]);
           ("url", JString "https://x/?q=cats");
           ("timestamp", JNumber (of_Z 1700000000000))].

(** Every port is free, and [saveData] rejects. *)
Definition save_fails : SettingTab.Outside :=
  {| SettingTab.bind_error := fun _ => None;
     SettingTab.saveData_error :=
       Some {| SettingTab.code := "EACCES";
               SettingTab.message := "permission denied" |} |}.

End LogProps.

(** * Properties *)

(** ** The port validator *)

Section ValidatePort.
Import Js Settings Props.

Lemma Qden_Qred_inject_Z z : Qden (Qred (inject_Z z)) = 1%positive.
Proof.
  unfold Qred, inject_Z.
  pose proof (Z.ggcd_correct_divisors z 1) as Hdiv.
  pose proof (Z.ggcd_gcd z 1) as Hgcd.
  destruct (Z.ggcd z 1) as [g [aa bb]]. simpl in *.
  rewrite Z.gcd_1_r in Hgcd. subst g.
  destruct Hdiv as [_ Hbb]. rewrite Z.mul_1_l in Hbb. subst bb. reflexivity.
Qed.

Lemma Number_isInteger_spec p :
  Number_isInteger p = true <-> exists z, is_integer_value p z.
Proof.
  destruct p as [| s | q]; cbn [Number_isInteger is_integer_value].
  - split; [discriminate | intros [z []]].
  - split; [discriminate | intros [z []]].
  - rewrite Pos.eqb_eq. split.
    + intros Hden. exists (Qnum (Qred q)).
      rewrite <- (Qred_correct q) at 1.
      destruct (Qred q) as [n d]. simpl in *. subst d. reflexivity.
    + intros [z Hz]. apply Qred_complete in Hz. rewrite Hz.
      apply Qden_Qred_inject_Z.
Qed.

Lemma is_integer_value_unique p z z' :
  is_integer_value p z -> is_integer_value p z' -> z = z'.
Proof.
  destruct p as [| s | q]; simpl; try tauto.
  intros Hz Hz'. rewrite Hz in Hz'. apply inject_Z_injective. assumption.
Qed.

Lemma lt_of_Z p z k : is_integer_value p z -> lt p (of_Z k) = (z <? k)%Z.
Proof.
  destruct p as [| s | q]; simpl; try tauto. intros Hq.
  destruct (Z.ltb_spec z k) as [Hlt | Hge].
  - apply negb_true_iff. apply not_true_iff_false. rewrite Qle_bool_iff.
    rewrite Hq, <- Zle_Qle. lia.
  - apply negb_false_iff. rewrite Qle_bool_iff.
    rewrite Hq, <- Zle_Qle. lia.
Qed.

Lemma gt_of_Z p z k : is_integer_value p z -> gt p (of_Z k) = (k <? z)%Z.
Proof.
  destruct p as [| s | q]; simpl; try tauto. intros Hq.
  destruct (Z.ltb_spec k z) as [Hlt | Hge].
  - apply negb_true_iff. apply not_true_iff_false. rewrite Qle_bool_iff.
    rewrite Hq, <- Zle_Qle. lia.
  - apply negb_false_iff. rewrite Qle_bool_iff.
    rewrite Hq, <- Zle_Qle. lia.
Qed.

Lemma validatePort_None t p :
  validatePort t p = None <->
  exists z : Z, is_integer_value p z /\ (1024 <= z <= 65535)%Z.
Proof.
  unfold validatePort.
  destruct (Number_isInteger p) eqn:Hint; cbn [negb].
  - apply Number_isInteger_spec in Hint as [z Hz].
    unfold MIN_PORT, MAX_PORT.
    rewrite (lt_of_Z _ _ _ Hz), (gt_of_Z _ _ _ Hz).
    destruct ((z <? 1024)%Z || (65535 <? z)%Z) eqn:Hout.
    + split; [discriminate |].
      intros [z' [Hz' Hrange]].
      rewrite (is_integer_value_unique _ _ _ Hz Hz') in Hout.
      apply orb_true_iff in Hout as [Hlo | Hhi]; lia.
    + split; [| reflexivity].
      intros _. exists z. split; [assumption |].
      apply orb_false_iff in Hout as [Hlo Hhi]. lia.
  - split; [discriminate |].
    intros [z [Hz _]].
    assert (Number_isInteger p = true) by (apply Number_isInteger_spec; eauto).
    congruence.
Qed.

(** C8. [validatePort] returns [null] exactly for the numbers that are an
    integer between 1024 and 65535 inclusive, and an error for every other
    number: one that is no integer (a fraction, [NaN], an infinity) and an
    integer outside the range. In particular 0, 1023 and 65536 are refused
    and the bounds 1024 and 65535 are accepted. *)
Theorem validatePort_accepts_exactly_the_range :
  forall (t : string -> list (string * JsValue) -> string),
    (forall p : number,
        validatePort t p = None <->
        exists z : Z, is_integer_value p z /\ (1024 <= z <= 65535)%Z)
    /\ validatePort t (of_Z 0) <> None
    /\ validatePort t (of_Z 1023) <> None
    /\ validatePort t (of_Z 65536) <> None
    /\ validatePort t NaN <> None
    /\ validatePort t (Finite (2049 # 2)) <> None
    /\ validatePort t (of_Z 1024) = None
    /\ validatePort t (of_Z 65535) = None.
Proof.
  intros t. split; [apply validatePort_None |].
  repeat split; discriminate.
Qed.

End ValidatePort.

(** ** The handler, path by path *)

Ltac hsimpl := cbn -[insert lookup Nat.ltb].

Ltac run_handler :=
  unfold LoggingServer.handle, LoggingServer.createHttpHandler,
    LoggingServer.on_end, LoggingServer.try_catch, LoggingServer.JSON_parse,
    LoggingServer.or_throw, LoggingServer.vault_create,
    LoggingServer.vault_read, LoggingServer.vault_modify,
    LoggingServer.vault_append, LoggingServer.await, LoggingServer.push,
    LoggingServer.shift, LoggingServer.getAbstractFileByPath,
    LoggingServer.writeHead, LoggingServer.res_end, LoggingServer.emit,
    LoggingServer.return_, LoggingServer.throw, LoggingServer.get_world,
    LoggingServer.put_world, mbind, mret, LoggingServer.M_bind,
    LoggingServer.M_ret;
  hsimpl.

Ltac rejected_by H :=
  exact (Paths.served_rejected _ _ _ _ _ _ _ _ _ _
           ltac:(eassumption) ltac:(eassumption) ltac:(eassumption) H).

Ltac accepted_by H :=
  lazymatch type of H with
  | Paths.Committed _ ?w _ ?done (inr ?v') =>
      lazymatch goal with
      | Hf : LoggingServer.destructure _ = Some (?q, _, _)
        |- Paths.Served _ _ _ _ ?r =>
          replace r with (Paths.accepted done q v' w);
          [ exact (Paths.served_accepted _ _ _ _ _ _ _ _ _ _
                     ltac:(eassumption) ltac:(eassumption) ltac:(eassumption) H)
          | unfold Paths.accepted, Paths.recorded, Paths.recording; hsimpl;
            destruct (Settings.MAX_RECENT <? _)%nat; reflexivity ]
      end
  end.

Section HandlerPaths.
Import Js Settings LoggingServer Props Paths.
#[local] Open Scope nat_scope.

Variable nts : number -> string.

Lemma on_end_served ctx b w : Served nts ctx w b (on_end nts ctx b w).
Proof.
  run_handler.
  destruct b as [| v]; hsimpl; [apply served_malformed |].
  destruct (destructure v) as [[[q u] ts] |] eqn:Hfields; hsimpl;
    [| apply served_null; assumption].
  destruct (includes (recentQueries w) q) eqn:Hdup; hsimpl;
    [eapply served_duplicate; eassumption |].
  destruct (line_of nts ts q u) as [ln |] eqn:Hline; hsimpl;
    [| eapply served_unprintable; eassumption].
  destruct (vault w !! getLogFileName ctx) as [[old |] |] eqn:Hfile; hsimpl.
  - destruct (getPrependMode ctx) eqn:Hmode; hsimpl.
    + destruct (rejects ctx Read) eqn:Hread; hsimpl.
      { rejected_by (read_rejected _ _ ln _ Hfile Hmode Hread). }
      rewrite Hfile; hsimpl.
      destruct (rejects ctx Modify) eqn:Hmodify; hsimpl.
      { rejected_by (modify_rejected _ _ ln _ Hfile Hmode Hread Hmodify). }
      accepted_by (prepended _ _ ln _ Hfile Hmode Hread Hmodify).
    + destruct (rejects ctx Append) eqn:Happend; hsimpl.
      { rejected_by (append_rejected _ _ ln _ Hfile Hmode Happend). }
      rewrite Hfile; hsimpl.
      accepted_by (appended _ _ ln _ Hfile Hmode Happend).
  - accepted_by (folder_skipped _ _ ln Hfile).
  - destruct (rejects ctx Create) eqn:Hcreate; hsimpl.
    { rejected_by (create_rejected _ _ ln Hfile Hcreate). }
    accepted_by (created _ _ ln Hfile Hcreate).
Qed.

Lemma handle_post_log ctx b w : Served nts ctx w b (handle nts ctx (post_log b) w).
Proof. apply on_end_served. Qed.

(** Any request: the preflight answer, 404, or a path of [POST /log]. *)
Lemma handle_cases ctx req w :
  handle nts ctx req w = preflight w
  \/ handle nts ctx req w = not_found w
  \/ Served nts ctx w (body req) (handle nts ctx req w).
Proof.
  unfold handle, createHttpHandler.
  destruct (String.eqb (method req) "OPTIONS"); [left; reflexivity |].
  destruct (String.eqb (method req) "POST" && String.eqb (url req) "/log").
  - right; right. apply on_end_served.
  - right; left. reflexivity.
Qed.

(** *** What a commit does *)

Lemma Committed_effects ctx w ln done res :
  Committed ctx w ln done res ->
  Forall (fun e => vault_effect e = true \/ warning e = true) done /\ done <> [].
Proof.
  intros H; destruct H;
    (split;
     [ repeat (constructor; [first [left; reflexivity | right; reflexivity] |]);
       constructor
     | discriminate ]).
Qed.

Lemma Committed_statusCode ctx w ln done res rest :
  Committed ctx w ln done res -> statusCode (done ++ rest) = statusCode rest.
Proof. intros H; destruct H; reflexivity. Qed.

Lemma Committed_rejects ctx w ln done res :
  Committed ctx w ln done res ->
  commit_rejects ctx w = match res with inl _ => true | inr _ => false end.
Proof.
  unfold commit_rejects.
  intros H; destruct H;
    repeat match goal with
      | Heq : _ = _ |- _ => rewrite Heq
      end; reflexivity.
Qed.

Lemma Committed_vault ctx w ln done v' :
  Committed ctx w ln done (inr v') ->
  match vault w !! getLogFileName ctx with
  | None => v' = <[getLogFileName ctx := TFile ln]> (vault w)
  | Some (TFile old) =>
      v' = <[getLogFileName ctx :=
               TFile (if getPrependMode ctx then ln +:+ old else old +:+ ln)]>
             (vault w)
  | Some TFolder => v' = vault w
  end.
Proof.
  intros H; inversion H; subst;
    repeat match goal with
      | Heq : _ = _ |- _ => rewrite Heq
      end; reflexivity.
Qed.

Lemma Committed_folder ctx w ln done res :
  vault w !! getLogFileName ctx = Some TFolder ->
  Committed ctx w ln done res ->
  done = [folder_warning (getLogFileName ctx)] /\ res = inr (vault w).
Proof.
  intros Hfolder H; destruct H; try congruence. split; reflexivity.
Qed.

Lemma Committed_writes ctx w ln done v' :
  Committed ctx w ln done (inr v') ->
  writes done =
    match vault w !! getLogFileName ctx with
    | Some TFolder => 0
    | _ => 1
    end.
Proof.
  intros H; inversion H; subst;
    repeat match goal with
      | Heq : _ = _ |- _ => rewrite Heq
      end; reflexivity.
Qed.

(** *** The buffer *)

Lemma includes_string buf s :
  includes buf (JString s) = true <-> JString s ∈ buf.
Proof.
  unfold includes. rewrite existsb_exists. split.
  - intros [x [Hin Hsame]]. apply list_elem_of_In.
    destruct x; try discriminate. cbn in Hsame.
    apply String.eqb_eq in Hsame. subst. assumption.
  - intros Hin. exists (JString s). split.
    + apply list_elem_of_In. assumption.
    + cbn. apply String.eqb_refl.
Qed.

Lemma recorded_length q buf :
  length buf <= MAX_RECENT -> length (recorded q buf) <= MAX_RECENT.
Proof.
  unfold recorded. intros Hlen.
  destruct (Nat.ltb_spec MAX_RECENT (length (buf ++ [q]))) as [Hover | Hfits].
  - destruct buf as [| x buf]; cbn in *; [lia |].
    rewrite length_app. cbn. lia.
  - assumption.
Qed.

Lemma recorded_room q buf :
  length buf < MAX_RECENT -> recorded q buf = buf ++ [q].
Proof.
  unfold recorded. intros Hlen.
  destruct (Nat.ltb_spec MAX_RECENT (length (buf ++ [q]))) as [Hover | Hfits];
    [| reflexivity].
  rewrite length_app in Hover. cbn in Hover. lia.
Qed.

Lemma recorded_full q buf :
  MAX_RECENT <= length buf -> recorded q buf = tail buf ++ [q].
Proof.
  unfold recorded. intros Hlen.
  destruct (Nat.ltb_spec MAX_RECENT (length (buf ++ [q]))) as [Hover | Hfits].
  - destruct buf; [cbn in Hlen; unfold MAX_RECENT in Hlen; lia | reflexivity].
  - rewrite length_app in Hfits. cbn in Hfits. lia.
Qed.

Lemma recorded_last q buf : q ∈ recorded q buf.
Proof.
  unfold recorded.
  destruct (Nat.ltb_spec MAX_RECENT (length (buf ++ [q]))) as [Hover | Hfits].
  - destruct buf as [| x buf]; [cbn in Hover; unfold MAX_RECENT in Hover; lia |].
    cbn. apply elem_of_app. right. apply list_elem_of_singleton. reflexivity.
  - apply elem_of_app. right. apply list_elem_of_singleton. reflexivity.
Qed.

Lemma recorded_subset q buf x : x ∈ recorded q buf -> x ∈ buf \/ x = q.
Proof.
  unfold recorded.
  destruct (MAX_RECENT <? length (buf ++ [q])); intros Hin.
  - destruct buf as [| y buf]; cbn in Hin.
    + apply elem_of_nil in Hin. contradiction.
    + apply elem_of_app in Hin as [Hin | Hin].
      * left. apply elem_of_cons. right. assumption.
      * right. apply list_elem_of_singleton in Hin. assumption.
  - apply elem_of_app in Hin as [Hin | Hin]; [left; assumption |].
    right. apply list_elem_of_singleton in Hin. assumption.
Qed.

(** *** Events *)

Lemma is_event_fields v q u ts :
  is_event v q u ts ->
  destructure v = Some (JString q, JString u, JNumber ts)
  /\ line_of nts (JNumber ts) (JString q) (JString u)
     = Some (event_line nts ts q u).
Proof.
  intros (props & -> & Hq & Hu & Hts). split; [| reflexivity].
  cbn. rewrite Hq, Hu, Hts. reflexivity.
Qed.

(** *** A query that is not in the buffer *)

Lemma handle_new_query ctx v q u ts w :
  destructure v = Some (q, u, ts) ->
  includes (recentQueries w) q = false ->
  (line_of nts ts q u = None
   /\ handle nts ctx (post_log (Json v)) w = failed [] TypeError w)
  \/ (exists ln done res,
         line_of nts ts q u = Some ln
         /\ Committed ctx w ln done res
         /\ handle nts ctx (post_log (Json v)) w
            = match res with
              | inr v' => accepted done q v' w
              | inl e => failed done e w
              end).
Proof.
  intros Hfields Hnew.
  remember (handle nts ctx (post_log (Json v)) w) as r eqn:Hr.
  pose proof (handle_post_log ctx (Json v) w) as Hs. rewrite <- Hr in Hs.
  inversion Hs as [| v0 Hf Hb Hout | v0 q0 u0 ts0 Hf Hdup Hb Hout
                   | v0 q0 u0 ts0 Hf Hdup Hline Hb Hout
                   | v0 q0 u0 ts0 ln done v' Hf Hdup Hline Hc Hb Hout
                   | v0 q0 u0 ts0 ln done e Hf Hdup Hline Hc Hb Hout];
    subst v0; rewrite Hfields in Hf; try discriminate;
    injection Hf as <- <- <-.
  - congruence.
  - left. split; [assumption | reflexivity].
  - right. exists ln, done, (inr v'). auto.
  - right. exists ln, done, (inl e). auto.
Qed.

Lemma handle_duplicate ctx v q u ts w :
  destructure v = Some (q, u, ts) ->
  includes (recentQueries w) q = true ->
  handle nts ctx (post_log (Json v)) w = skipped w.
Proof.
  intros Hfields Hdup.
  remember (handle nts ctx (post_log (Json v)) w) as r eqn:Hr.
  pose proof (handle_post_log ctx (Json v) w) as Hs. rewrite <- Hr in Hs.
  inversion Hs as [| v0 Hf Hb Hout | v0 q0 u0 ts0 Hf Hdup' Hb Hout
                   | v0 q0 u0 ts0 Hf Hdup' Hline Hb Hout
                   | v0 q0 u0 ts0 ln done v' Hf Hdup' Hline Hc Hb Hout
                   | v0 q0 u0 ts0 ln done e Hf Hdup' Hline Hc Hb Hout];
    subst v0; rewrite Hfields in Hf; try discriminate;
    injection Hf as <- <- <-; congruence.
Qed.

End HandlerPaths.

(** ** The ingestion endpoint *)

Section Endpoint.
Import Js Settings LoggingServer Props Paths.
#[local] Open Scope nat_scope.

Variable nts : number -> string.

Lemma status_failed done e w ctx ln res :
  Committed ctx w ln done res -> status (failed done e w) = Some 400.
Proof.
  intros H. unfold status, failed. cbn [effects].
  rewrite (Committed_statusCode _ _ _ _ _ _ H). reflexivity.
Qed.

Lemma status_accepted done q v' w ctx ln res :
  Committed ctx w ln done res -> status (accepted done q v' w) = Some 200.
Proof.
  intros H. unfold status, accepted, recording. cbn [effects].
  rewrite (Committed_statusCode _ _ _ _ _ _ H).
  destruct (MAX_RECENT <? _); reflexivity.
Qed.

(** C2, as the handler has it. [POST /log] answers 400 or 200. It answers
    400 exactly when [JSON.parse] throws on the body, or the value parsed is
    [null], or the query is not in the buffer and either a field cannot be
    converted to a string for the line or the vault operation of the commit
    rejects. Every other body is answered 200, whether it has the three
    fields or not. *)
Theorem post_log_answers_400_exactly_on_a_throw :
  forall (ctx : LogContext) (b : Body) (w : World),
    let r := handle nts ctx (post_log b) w in
    (status r = Some 400 \/ status r = Some 200)
    /\ (status r = Some 400 <->
        match b with
        | Malformed => True
        | Json v =>
            match destructure v with
            | None => True
            | Some (q, u, ts) =>
                includes (recentQueries w) q = false
                /\ (line_of nts ts q u = None \/ commit_rejects ctx w = true)
            end
        end).
Proof.
  intros ctx b w r. subst r.
  destruct (handle_post_log nts ctx b w)
    as [| v Hf | v q u ts Hf Hdup | v q u ts Hf Hdup Hline
        | v q u ts ln done v' Hf Hdup Hline Hc
        | v q u ts ln done e Hf Hdup Hline Hc].
  - split; [left; reflexivity | split; [tauto | reflexivity]].
  - rewrite Hf. split; [left; reflexivity | split; [tauto | reflexivity]].
  - rewrite Hf. split; [right; reflexivity |].
    split; [discriminate | intros [Hnot _]; congruence].
  - rewrite Hf. split; [left; reflexivity |].
    split; [auto | reflexivity].
  - rewrite Hf, (status_accepted _ _ _ _ _ _ _ Hc).
    split; [right; reflexivity |].
    split; [discriminate |].
    intros [_ [Hnone | Hrej]]; [congruence |].
    rewrite (Committed_rejects _ _ _ _ _ Hc) in Hrej. discriminate.
  - rewrite Hf, (status_failed _ _ _ _ _ _ Hc).
    split; [left; reflexivity |].
    split; [| reflexivity].
    intros _. split; [assumption |]. right.
    rewrite (Committed_rejects _ _ _ _ _ Hc). reflexivity.
Qed.

(** C3, as the handler has it. For an event that passes the duplicate test
    and is answered 200, the handler first runs the commit (the vault
    operations, or the warning when the target is a folder), then records the
    query ([push], then [shift] when the buffer is over its capacity), then
    answers: every vault operation comes before every change of the
    buffer. *)
Theorem commit_comes_before_record :
  forall (ctx : LogContext) (v q u ts : JsValue) (w : World),
    destructure v = Some (q, u, ts) ->
    includes (recentQueries w) q = false ->
    status (handle nts ctx (post_log (Json v)) w) = Some 200 ->
    let es := effects (handle nts ctx (post_log (Json v)) w) in
    (exists commit shifts,
        es = commit ++ Push q :: shifts ++ [WriteHead 200 CORS; ResEnd]
        /\ commit <> []
        /\ Forall (fun e => vault_effect e = true \/ warning e = true) commit
        /\ (shifts = [] \/ shifts = [Shift]))
    /\ precedes vault_effect buffer_effect es.
Proof.
  intros ctx v q u ts w Hfields Hnew Hok es. subst es.
  destruct (handle_new_query nts ctx v q u ts w Hfields Hnew)
    as [[_ Hr] | (ln & done & [e | v'] & _ & Hc & Hr)];
    rewrite Hr in *.
  - discriminate.
  - rewrite (status_failed _ _ _ _ _ _ Hc) in Hok. discriminate.
  - destruct (Committed_effects _ _ _ _ _ Hc) as [Hkinds Hne].
    assert (Hshape : exists shifts,
               recording q (recentQueries w) = Push q :: shifts
               /\ (shifts = [] \/ shifts = [Shift])).
    { unfold recording. destruct (MAX_RECENT <? _); eauto. }
    destruct Hshape as (shifts & Hrec & Hshifts).
    assert (Hes : effects (accepted done q v' w)
                  = done ++ Push q :: shifts ++ [WriteHead 200 CORS; ResEnd]).
    { unfold accepted. cbn [effects]. rewrite Hrec. reflexivity. }
    split; [exists done, shifts; auto |].
    rewrite Hes. clear - Hkinds Hshifts.
    intros i j x y Hi Hj Hx Hy.
    destruct (Nat.lt_ge_cases i (length done)) as [Hlt | Hge].
    + destruct (Nat.lt_ge_cases j (length done)) as [Hjlt | Hjge]; [| lia].
      rewrite lookup_app_l in Hj by assumption.
      rewrite Forall_forall in Hkinds.
      assert (Hin : y ∈ done) by (eapply list_elem_of_lookup_2; eassumption).
      destruct (Hkinds y Hin); destruct y; discriminate.
    + rewrite lookup_app_r in Hi by assumption.
      exfalso. apply list_elem_of_lookup_2 in Hi.
      destruct Hshifts as [-> | ->]; cbn in Hi;
        repeat (apply elem_of_cons in Hi as [-> | Hi]; [discriminate |]);
        apply elem_of_nil in Hi; contradiction.
Qed.

(** *** Counting writes *)

Lemma writes_app es es' : writes (es ++ es') = writes es + writes es'.
Proof. unfold writes. rewrite filter_app, length_app. reflexivity. Qed.

Lemma writes_recording q buf : writes (recording q buf) = 0.
Proof. unfold recording. destruct (MAX_RECENT <? _); reflexivity. Qed.

Lemma writes_accepted ctx w ln done q v' :
  Committed ctx w ln done (inr v') ->
  writes (effects (accepted done q v' w))
  = match vault w !! getLogFileName ctx with
    | Some TFolder => 0
    | _ => 1
    end.
Proof.
  intros Hc. unfold accepted. cbn [effects].
  rewrite !writes_app, writes_recording, (Committed_writes _ _ _ _ _ Hc).
  change (writes [WriteHead 200 CORS; ResEnd]) with 0.
  destruct (vault w !! getLogFileName ctx) as [[|] |]; lia.
Qed.

Lemma no_write_is_no_vault_effect es :
  Forall (fun e => vault_effect e = false) es -> writes es = 0.
Proof.
  induction 1 as [| e es He _ IH]; [reflexivity |].
  unfold writes in *. cbn.
  destruct e; cbn in *; try discriminate; assumption.
Qed.

(** After an answer 200 the query of the request is in the buffer. *)
Lemma answered_query_is_recent ctx v s u ts w :
  destructure v = Some (JString s, u, ts) ->
  status (handle nts ctx (post_log (Json v)) w) = Some 200 ->
  JString s ∈ recentQueries (after (handle nts ctx (post_log (Json v)) w)).
Proof.
  intros Hfields Hok.
  destruct (includes (recentQueries w) (JString s)) eqn:Hdup.
  - rewrite (handle_duplicate nts ctx v _ _ _ w Hfields Hdup).
    apply includes_string. assumption.
  - destruct (handle_new_query nts ctx v _ _ _ w Hfields Hdup)
      as [[_ Hr] | (ln & done & [e | v'] & _ & Hc & Hr)];
      rewrite Hr in *.
    + discriminate.
    + rewrite (status_failed _ _ _ _ _ _ Hc) in Hok. discriminate.
    + cbn [after accepted recentQueries]. apply recorded_last.
Qed.

(** C4. A [POST /log] request whose query is a string equal to an entry of
    the buffer is answered 200 with no other effect: no vault operation is
    issued, and the buffer and the vault are as before. Hence, when a query
    is sent twice in a row and the first request is answered 200, the
    second is dropped in this way, the two requests together write at most
    one line, and exactly one when the query was not in the buffer before
    and the target is not a folder. *)
Theorem duplicate_query_is_answered_and_dropped :
  forall (ctx ctx' : LogContext) (v v' : JsValue) (s : string)
         (u ts u' ts' : JsValue) (w : World),
    destructure v = Some (JString s, u, ts) ->
    destructure v' = Some (JString s, u', ts') ->
    let r := handle nts ctx (post_log (Json v)) w in
    let r' := handle nts ctx' (post_log (Json v')) (after r) in
    (JString s ∈ recentQueries w ->
     effects r = [WriteHead 200 CORS; ResEnd] /\ after r = w)
    /\ (status r = Some 200 ->
        effects r' = [WriteHead 200 CORS; ResEnd]
        /\ after r' = after r
        /\ writes (effects r ++ effects r') <= 1)
    /\ (status r = Some 200 ->
        JString s ∉ recentQueries w ->
        vault w !! getLogFileName ctx <> Some TFolder ->
        writes (effects r ++ effects r') = 1).
Proof.
  intros ctx ctx' v v' s u ts u' ts' w Hfields Hfields' r r'.
  assert (Hsecond : status r = Some 200 ->
                    r' = skipped (after r)).
  { intros Hok. subst r'.
    eapply handle_duplicate; [eassumption |].
    apply includes_string.
    apply (answered_query_is_recent ctx v s u ts w Hfields Hok). }
  split; [| split].
  - intros Hin. apply includes_string in Hin.
    subst r. rewrite (handle_duplicate nts ctx v _ _ _ w Hfields Hin).
    split; reflexivity.
  - intros Hok. rewrite (Hsecond Hok). repeat split.
    rewrite writes_app. cbn [effects skipped].
    change (writes [WriteHead 200 CORS; ResEnd]) with 0.
    subst r.
    destruct (includes (recentQueries w) (JString s)) eqn:Hdup.
    + rewrite (handle_duplicate nts ctx v _ _ _ w Hfields Hdup).
      change (writes (effects (skipped w))) with 0. lia.
    + destruct (handle_new_query nts ctx v _ _ _ w Hfields Hdup)
        as [[_ Hr] | (ln & done & [e | v0] & _ & Hc & Hr)];
        rewrite Hr in *.
      * discriminate.
      * rewrite (status_failed _ _ _ _ _ _ Hc) in Hok. discriminate.
      * rewrite (writes_accepted _ _ _ _ _ _ Hc).
        destruct (vault w !! getLogFileName ctx) as [[|] |]; lia.
  - intros Hok Hnew Hfile. rewrite (Hsecond Hok).
    rewrite writes_app. cbn [effects skipped].
    change (writes [WriteHead 200 CORS; ResEnd]) with 0.
    subst r.
    assert (Hdup : includes (recentQueries w) (JString s) = false).
    { apply not_true_iff_false. intros Hin. apply Hnew.
      apply includes_string. assumption. }
    destruct (handle_new_query nts ctx v _ _ _ w Hfields Hdup)
      as [[_ Hr] | (ln & done & [e | v0] & _ & Hc & Hr)];
      rewrite Hr in *.
    + discriminate.
    + rewrite (status_failed _ _ _ _ _ _ Hc) in Hok. discriminate.
    + rewrite (writes_accepted _ _ _ _ _ _ Hc).
      destruct (vault w !! getLogFileName ctx) as [[|] |]; [lia | | lia].
      contradiction Hfile. reflexivity.
Qed.

(** The duplicate test decides the early answer: a [POST /log] request meets
    it exactly when the handler answers 200 and does nothing else. *)
Lemma treated_as_duplicate_spec ctx b w :
  treated_as_duplicate w (post_log b) = true
  <-> handle nts ctx (post_log b) w = skipped w.
Proof.
  unfold treated_as_duplicate. cbn [body post_log].
  destruct (handle_post_log nts ctx b w)
    as [| v Hf | v q u ts Hf Hdup | v q u ts Hf Hdup Hline
        | v q u ts ln done v' Hf Hdup Hline Hc
        | v q u ts ln done e Hf Hdup Hline Hc];
    try rewrite Hf; try rewrite Hdup;
    (split; [try discriminate; auto | try discriminate; auto]).
Qed.

(** *** The buffer across requests *)

(** A request leaves the buffer as it is or records its query. *)
Lemma handle_buffer ctx req w :
  recentQueries (after (handle nts ctx req w)) = recentQueries w
  \/ exists v q u ts,
       body req = Json v
       /\ destructure v = Some (q, u, ts)
       /\ includes (recentQueries w) q = false
       /\ status (handle nts ctx req w) = Some 200
       /\ recentQueries (after (handle nts ctx req w))
          = recorded q (recentQueries w).
Proof.
  destruct (handle_cases nts ctx req w) as [-> | [-> | Hs]];
    [left; reflexivity | left; reflexivity |].
  destruct Hs as [| v Hf | v q u ts Hf Hdup | v q u ts Hf Hdup Hline
                  | v q u ts ln done v' Hf Hdup Hline Hc
                  | v q u ts ln done e Hf Hdup Hline Hc];
    try (left; reflexivity).
  right. exists v, q, u, ts.
  rewrite (status_accepted _ _ _ _ _ _ _ Hc). auto.
Qed.

Lemma handle_keeps_capacity ctx req w :
  length (recentQueries w) <= MAX_RECENT ->
  length (recentQueries (after (handle nts ctx req w))) <= MAX_RECENT.
Proof.
  intros Hlen.
  destruct (handle_buffer ctx req w)
    as [-> | (v & q & u & ts & _ & _ & _ & _ & ->)];
    [assumption | apply recorded_length; assumption].
Qed.

Lemma run_keeps_capacity reqs w :
  length (recentQueries w) <= MAX_RECENT ->
  length (recentQueries (run nts reqs w)) <= MAX_RECENT.
Proof.
  revert w. induction reqs as [| x reqs IH]; intros w Hlen; [assumption |].
  cbn. apply IH. apply handle_keeps_capacity. assumption.
Qed.

Lemma distinct_queries_never_duplicate reqs :
  forall (qs : list string) (w : World),
    Forall2 sends (map snd reqs) qs ->
    NoDup qs ->
    (forall s, JString s ∈ recentQueries w -> s ∉ qs) ->
    never_duplicate nts reqs w.
Proof.
  induction reqs as [| x reqs IH]; intros qs w Hsends Hnodup Hold;
    [exact I |].
  cbn [map] in Hsends.
  inversion Hsends as [| req q reqs' qs' Hsend Hrest]; subst.
  apply NoDup_cons in Hnodup as [Hq Hnodup].
  destruct Hsend as (v & u & ts & Hreq & Hev).
  destruct (is_event_fields nts _ _ _ _ Hev) as [Hfields _].
  assert (Hnew : includes (recentQueries w) (JString q) = false).
  { apply not_true_iff_false. intros Hin. apply includes_string in Hin.
    apply (Hold q Hin). apply elem_of_cons. left. reflexivity. }
  cbn [never_duplicate]. split.
  - unfold treated_as_duplicate. rewrite Hreq. cbn [body post_log].
    rewrite Hfields. assumption.
  - apply (IH qs'); [assumption | assumption |].
    intros s Hin Hs.
    destruct (handle_buffer (fst x) (snd x) w)
      as [Hsame | (v0 & q0 & u0 & ts0 & Hb & Hf0 & _ & _ & Hrec)].
    + rewrite Hsame in Hin.
      apply (Hold s Hin). apply elem_of_cons. right. assumption.
    + rewrite Hrec in Hin. rewrite Hreq in Hb. cbn [body post_log] in Hb.
      injection Hb as <-. rewrite Hfields in Hf0. injection Hf0 as <- <- <-.
      apply recorded_subset in Hin as [Hin | Heq].
      * apply (Hold s Hin). apply elem_of_cons. right. assumption.
      * injection Heq as ->. contradiction.
Qed.

(** C5. From the empty buffer, whatever requests are handled, the buffer
    holds at most [MAX_RECENT] = 3 queries. Recording a query appends it
    when there is room and, when the buffer is full, drops the oldest entry
    and appends it. And when the requests send pairwise distinct queries, at
    most three of them, none meets the duplicate test. *)
Theorem buffer_is_a_bounded_fifo :
  forall (reqs : list (LogContext * IncomingMessage)) (w : World),
    recentQueries w = [] ->
    MAX_RECENT = 3
    /\ length (recentQueries (run nts reqs w)) <= MAX_RECENT
    /\ (forall ctx v q u ts w',
           destructure v = Some (q, u, ts) ->
           includes (recentQueries w') q = false ->
           status (handle nts ctx (post_log (Json v)) w') = Some 200 ->
           recentQueries (after (handle nts ctx (post_log (Json v)) w'))
           = if length (recentQueries w') <? MAX_RECENT
             then recentQueries w' ++ [q]
             else tail (recentQueries w') ++ [q])
    /\ (forall qs : list string,
           Forall2 sends (map snd reqs) qs ->
           NoDup qs ->
           length qs <= MAX_RECENT ->
           never_duplicate nts reqs w).
Proof.
  intros reqs w Hempty. split; [reflexivity |]. split; [| split].
  - apply run_keeps_capacity. rewrite Hempty. cbn. unfold MAX_RECENT. lia.
  - intros ctx v q u ts w' Hfields Hnew Hok.
    destruct (handle_new_query nts ctx v q u ts w' Hfields Hnew)
      as [[_ Hr] | (ln & done & [e | v'] & _ & Hc & Hr)];
      rewrite Hr in *.
    + discriminate.
    + rewrite (status_failed _ _ _ _ _ _ Hc) in Hok. discriminate.
    + cbn [after accepted recentQueries].
      destruct (Nat.ltb_spec (length (recentQueries w')) MAX_RECENT).
      * apply recorded_room. assumption.
      * apply recorded_full. assumption.
  - intros qs Hsends Hnodup _.
    apply (distinct_queries_never_duplicate reqs qs w Hsends Hnodup).
    intros s Hin. rewrite Hempty in Hin. apply elem_of_nil in Hin.
    contradiction.
Qed.

(** *** The document writer *)

(** C6. For an event whose query is not in the buffer and whose vault
    operations settle, the commit leaves the vault as follows. When nothing
    is at the target path, a note is created there whose text is exactly the
    line of the event, in both modes. When a note is there, append mode
    makes its text the old text followed by the line, and prepend mode makes
    it the line followed by the old text. No other path changes. *)
Theorem commit_writes_the_line :
  forall (ctx : LogContext) (v : JsValue) (q u : string) (ts : number)
         (w : World),
    is_event v q u ts ->
    JString q ∉ recentQueries w ->
    commit_rejects ctx w = false ->
    let r := handle nts ctx (post_log (Json v)) w in
    let path := getLogFileName ctx in
    let line := event_line nts ts q u in
    status r = Some 200
    /\ match vault w !! path with
       | None =>
           vault (after r) = <[path := TFile line]> (vault w)
           /\ effects r !! 0 = Some (VaultCreate path line)
       | Some (TFile old) =>
           vault (after r)
           = <[path := TFile (if getPrependMode ctx then line +:+ old
                              else old +:+ line)]> (vault w)
       | Some TFolder => vault (after r) = vault w
       end.
Proof.
  intros ctx v q u ts w Hev Hnew Hsettle r path line.
  destruct (is_event_fields nts _ _ _ _ Hev) as [Hfields Hline].
  assert (Hdup : includes (recentQueries w) (JString q) = false).
  { apply not_true_iff_false. intros Hin. apply Hnew.
    apply includes_string. assumption. }
  subst r.
  destruct (handle_new_query nts ctx v _ _ _ w Hfields Hdup)
    as [[Hnone _] | (ln & done & res & Hln & Hc & Hr)];
    [congruence |].
  rewrite Hline in Hln. injection Hln as <-.
  pose proof (Committed_rejects _ _ _ _ _ Hc) as Hrej.
  rewrite Hsettle in Hrej. destruct res as [e | v']; [discriminate |].
  rewrite Hr. split; [apply (status_accepted _ _ _ _ _ _ _ Hc) |].
  cbn [after accepted vault].
  pose proof (Committed_vault _ _ _ _ _ Hc) as Hv.
  subst path line.
  destruct (vault w !! getLogFileName ctx) as [[old |] |] eqn:Hfile;
    try assumption.
  split; [assumption |].
  inversion Hc; subst; try congruence. reflexivity.
Qed.

Lemma Committed_no_buffer_effect ctx w ln done res :
  Committed ctx w ln done res ->
  Forall (fun e => buffer_effect e = false) done.
Proof. intros H; destruct H; repeat constructor. Qed.

(** C9. Whenever the handler answers 400, the buffer is what it was before
    the request, and the request has made no [push] and no [shift]. *)
Theorem error_leaves_the_buffer :
  forall (ctx : LogContext) (req : IncomingMessage) (w : World),
    status (handle nts ctx req w) = Some 400 ->
    recentQueries (after (handle nts ctx req w)) = recentQueries w
    /\ Forall (fun e => buffer_effect e = false)
              (effects (handle nts ctx req w)).
Proof.
  intros ctx req w Hbad.
  destruct (handle_cases nts ctx req w) as [Hr | [Hr | Hs]];
    [rewrite Hr in Hbad; discriminate | rewrite Hr in Hbad; discriminate |].
  destruct Hs as [| v Hf | v q u ts Hf Hdup | v q u ts Hf Hdup Hline
                  | v q u ts ln done v' Hf Hdup Hline Hc
                  | v q u ts ln done e Hf Hdup Hline Hc].
  - split; [reflexivity | repeat constructor].
  - split; [reflexivity | repeat constructor].
  - discriminate.
  - split; [reflexivity | repeat constructor].
  - rewrite (status_accepted _ _ _ _ _ _ _ Hc) in Hbad. discriminate.
  - split; [reflexivity |]. unfold failed. cbn [effects].
    apply Forall_app. split;
      [apply (Committed_no_buffer_effect _ _ _ _ _ Hc) | repeat constructor].
Qed.

(** *** A target that is a folder *)

Lemma folder_request ctx req w :
  vault w !! getLogFileName ctx = Some TFolder ->
  Forall (fun e => vault_effect e = false) (effects (handle nts ctx req w))
  /\ vault (after (handle nts ctx req w)) = vault w.
Proof.
  intros Hfolder.
  destruct (handle_cases nts ctx req w) as [-> | [-> | Hs]];
    [split; [repeat constructor | reflexivity]
    | split; [repeat constructor | reflexivity] |].
  destruct Hs as [| v Hf | v q u ts Hf Hdup | v q u ts Hf Hdup Hline
                  | v q u ts ln done v' Hf Hdup Hline Hc
                  | v q u ts ln done e Hf Hdup Hline Hc];
    try (split; [repeat constructor | reflexivity]).
  - destruct (Committed_folder _ _ _ _ _ Hfolder Hc) as [-> Hres].
    injection Hres as ->. split; [| reflexivity].
    unfold accepted, recording. cbn [effects].
    destruct (MAX_RECENT <? _); repeat constructor.
  - destruct (Committed_folder _ _ _ _ _ Hfolder Hc) as [_ Hres].
    discriminate.
Qed.

Lemma folder_event ctx v q u ts w :
  vault w !! getLogFileName ctx = Some TFolder ->
  destructure v = Some (q, u, ts) ->
  includes (recentQueries w) q = false ->
  line_of nts ts q u <> None ->
  handle nts ctx (post_log (Json v)) w
  = accepted [folder_warning (getLogFileName ctx)] q (vault w) w.
Proof.
  intros Hfolder Hfields Hnew Hline.
  destruct (handle_new_query nts ctx v q u ts w Hfields Hnew)
    as [[Hnone _] | (ln & done & res & _ & Hc & Hr)];
    [contradiction |].
  destruct (Committed_folder _ _ _ _ _ Hfolder Hc) as [-> ->].
  assumption.
Qed.

(** C7. When the target path is a folder, no request makes the handler issue
    a vault operation, and the vault stays as it is. An event whose query is
    not in the buffer is then answered 200, after a warning on the console
    that names the path. *)
Theorem folder_target_is_skipped :
  forall (ctx : LogContext) (w : World),
    vault w !! getLogFileName ctx = Some TFolder ->
    (forall req : IncomingMessage,
        Forall (fun e => vault_effect e = false)
               (effects (handle nts ctx req w))
        /\ vault (after (handle nts ctx req w)) = vault w)
    /\ (forall (v : JsValue) (q u : string) (ts : number),
           is_event v q u ts ->
           JString q ∉ recentQueries w ->
           status (handle nts ctx (post_log (Json v)) w) = Some 200
           /\ effects (handle nts ctx (post_log (Json v)) w) !! 0
              = Some (ConsoleWarn
                        ("SearchLogger: “" +:+ getLogFileName ctx
                           +:+ "” exists but is a folder. Skipping."))
           /\ Exists (fun e => warning e = true)
                     (effects (handle nts ctx (post_log (Json v)) w))).
Proof.
  intros ctx w Hfolder. split; [intros req; apply folder_request; assumption |].
  intros v q u ts Hev Hnew.
  destruct (is_event_fields nts _ _ _ _ Hev) as [Hfields Hline].
  assert (Hdup : includes (recentQueries w) (JString q) = false).
  { apply not_true_iff_false. intros Hin. apply Hnew.
    apply includes_string. assumption. }
  rewrite (folder_event ctx v _ _ _ w Hfolder Hfields Hdup)
    by (rewrite Hline; discriminate).
  split; [| split].
  - apply (status_accepted _ _ _ _ ctx "" (inr (vault w))).
    apply folder_skipped. assumption.
  - reflexivity.
  - apply Exists_cons_hd. reflexivity.
Qed.

(** C10. An event dropped because the target is a folder is recorded all
    the same: after it, its query is in the buffer, although nothing was
    written. The same query sent again at once is answered 200 with no
    other effect and no write. *)
Theorem dropped_event_is_still_recorded :
  forall (ctx ctx' : LogContext) (v v' : JsValue) (s u u' : string)
         (ts ts' : number) (w : World),
    vault w !! getLogFileName ctx = Some TFolder ->
    is_event v s u ts ->
    is_event v' s u' ts' ->
    JString s ∉ recentQueries w ->
    let r := handle nts ctx (post_log (Json v)) w in
    let r' := handle nts ctx' (post_log (Json v')) (after r) in
    JString s ∈ recentQueries (after r)
    /\ writes (effects r) = 0
    /\ vault (after r) = vault w
    /\ status r' = Some 200
    /\ effects r' = [WriteHead 200 CORS; ResEnd]
    /\ after r' = after r.
Proof.
  intros ctx ctx' v v' s u u' ts ts' w Hfolder Hev Hev' Hnew r r'.
  destruct (is_event_fields nts _ _ _ _ Hev) as [Hfields Hline].
  destruct (is_event_fields nts _ _ _ _ Hev') as [Hfields' _].
  assert (Hdup : includes (recentQueries w) (JString s) = false).
  { apply not_true_iff_false. intros Hin. apply Hnew.
    apply includes_string. assumption. }
  assert (Hr : r = accepted [folder_warning (getLogFileName ctx)]
                     (JString s) (vault w) w).
  { apply (folder_event ctx v _ _ _ w Hfolder Hfields Hdup).
    rewrite Hline. discriminate. }
  assert (Hin : JString s ∈ recentQueries (after r)).
  { rewrite Hr. cbn [after accepted recentQueries]. apply recorded_last. }
  assert (Hr' : r' = skipped (after r)).
  { apply (handle_duplicate nts ctx' v' _ _ _ (after r) Hfields').
    apply includes_string. assumption. }
  split; [assumption |]. split; [| split].
  - apply no_write_is_no_vault_effect.
    apply (folder_request ctx (post_log (Json v)) w Hfolder).
  - apply (folder_request ctx (post_log (Json v)) w Hfolder).
  - rewrite Hr'. repeat split.
Qed.

End Endpoint.

(** ** The listener and its rebinding *)

Section Rebind.
Import Js Settings SettingTab.

Variable t : string -> list (string * JsValue) -> string.
Variable nts : number -> string.

Lemma valid_port_is_a_number p : validatePort t p = None -> isNaN p = false.
Proof. destruct p; [discriminate | reflexivity | reflexivity]. Qed.

(** [onload] on a free port leaves one listener, on the port of the
    settings. *)
Lemma onload_listens out st :
  listening st = [] ->
  bind_error out (settings_port st) = None ->
  server (onload out st) = Some (created st)
  /\ listening (onload out st) = [(created st, settings_port st)]
  /\ settings_port (onload out st) = settings_port st.
Proof.
  intros Hnone Hfree. unfold onload, listen, createServer. cbn.
  rewrite Hfree, Hnone. cbn. auto.
Qed.

Lemma onload_binds out st :
  listening st = [] ->
  bind_error out (settings_port st) = None ->
  Props.bound out (onload out st).
Proof.
  intros Hnone Hfree.
  destruct (onload_listens out st Hnone Hfree) as (Hserver & Hlisten & Hport).
  exists (created st). rewrite Hport. auto.
Qed.

(** [onunload] closes the listener. *)
Lemma onunload_closes st s p :
  server st = Some s ->
  listening st = [(s, p)] ->
  server (onunload st) = None /\ listening (onunload st) = [].
Proof.
  intros Hs Hl. unfold onunload, close. rewrite Hs. cbn. rewrite Hl. cbn.
  rewrite Nat.eqb_refl. auto.
Qed.

(** A port outside the range stops the callback at its first test: nothing is
    closed and nothing is bound. *)
Lemma refused_port_changes_no_listener out parsed st :
  truthy (validatePort t (if isNaN parsed then of_Z (-1) else parsed)) = true ->
  server (onChange t nts out parsed st) = server st
  /\ listening (onChange t nts out parsed st) = listening st
  /\ settings_port (onChange t nts out parsed st) = settings_port st.
Proof.
  intros Hrefused. unfold onChange. rewrite Hrefused. auto.
Qed.

(** Whatever is typed into the port field, a bound plugin stays bound, as
    long as the settings can be saved. *)
Lemma onChange_keeps_bound out parsed st :
  saveData_error out = None ->
  Props.bound out st ->
  Props.bound out (onChange t nts out parsed st).
Proof.
  intros Hsave (s & Hserver & Hlisten & Hfree).
  destruct st as [port srv sockets count errorEl value].
  cbn in Hserver, Hlisten, Hfree. subst srv sockets.
  unfold onChange.
  destruct (truthy _).
  - exists s. auto.
  - unfold createServer, listen, close, rollback.
    cbn -[number_eqb String.eqb String.append].
    rewrite Nat.eqb_refl.
    cbn -[number_eqb String.eqb String.append].
    destruct (bind_error out (if isNaN parsed then of_Z (-1) else parsed))
      as [err |] eqn:Hbind.
    + unfold listen, close.
      cbn -[number_eqb String.eqb String.append].
      rewrite Hfree.
      cbn -[number_eqb String.eqb String.append].
      exists s. auto.
    + rewrite Hsave.
      cbn -[number_eqb String.eqb String.append].
      exists count. auto.
Qed.

(** The rollback goes by the port of the settings. A server [old] of the
    plugin listens on [p1] while the settings hold [p0], which is free for
    this process; the port field is set to a valid port [p2]. If binding
    [p2] fails, then afterwards [old] listens on [p0], the port that the
    callback read from the settings when it started, and on no other port,
    and the field shows [p0] and the error: the message of
    [settings.error.port_used] when the code of the error is [EADDRINUSE],
    that of [settings.error.port_openfail] with the error's message
    otherwise. If binding [p2] succeeds and the settings are saved, the new
    server is the only listener, on [p2], and the settings hold [p2]. So a
    failed bind brings the service back to the port it had exactly when the
    settings held that port. *)
Lemma rollback_goes_by_the_port_of_the_settings :
  forall (out : Outside) (st : State) (old : nat) (p0 p1 p2 : number),
    server st = Some old ->
    listening st = [(old, p1)] ->
    settings_port st = p0 ->
    bind_error out p0 = None ->
    validatePort t p2 = None ->
    let st' := onChange t nts out p2 st in
    match bind_error out p2 with
    | Some err =>
        server st' = Some old
        /\ listening st' = [(old, p0)]
        /\ (forall p, reachable p st' = number_eqb p0 p)
        /\ settings_port st' = p0
        /\ text_value st' = Some (nts p0)
        /\ portErrorEl st'
           = "⚠ " +:+
             (if String.eqb (code err) "EADDRINUSE" then
                t "settings.error.port_used" [("PORT", JNumber p2)]
              else
                t "settings.error.port_openfail"
                  [("PORT", JNumber p2); ("MSG", JString (message err))])
    | None =>
        saveData_error out = None ->
        server st' = Some (created st)
        /\ listening st' = [(created st, p2)]
        /\ (forall p, reachable p st' = number_eqb p2 p)
        /\ settings_port st' = p2
        /\ portErrorEl st' = ""
    end.
Proof.
  intros out st old p0 p1 p2 Hserver Hlisten Hport Hfree Hvalid st'. subst st'.
  destruct st as [port srv sockets count errorEl value].
  cbn in Hserver, Hlisten, Hport. subst port srv sockets.
  unfold onChange.
  rewrite (valid_port_is_a_number _ Hvalid), Hvalid.
  unfold createServer, listen, close, rollback.
  cbn -[number_eqb String.eqb String.append].
  rewrite Nat.eqb_refl.
  cbn -[number_eqb String.eqb String.append].
  destruct (bind_error out p2) as [err |] eqn:Hbind.
  - unfold listen, close.
    cbn -[number_eqb String.eqb String.append].
    rewrite Hfree.
    cbn -[number_eqb String.eqb String.append].
    repeat split. intros p. unfold reachable.
    cbn -[number_eqb String.eqb String.append].
    apply orb_false_r.
  - intros Hsave. rewrite Hsave.
    cbn -[number_eqb String.eqb String.append].
    repeat split. intros p. unfold reachable.
    cbn -[number_eqb String.eqb String.append].
    apply orb_false_r.
Qed.

End Rebind.

(** ** The properties at concrete inputs *)

Section Examples.
Import Js Settings LoggingServer Props.
#[local] Open Scope nat_scope.

(** A first event in a fresh state, append mode: the note is created with
    its line. The same query again is answered 200 and the note keeps its one
    line. *)
Example first_event_creates_the_note :
  vault (after (handle decimal appending (post_log (Json cats)) fresh))
  = {[ "SearchLog.md" :=
         TFile ("- 1700000000000" +:+ TAB
                  +:+ "— cats [↗️](https://x/?q=cats)" +:+ LF) ]}
  /\ status (handle decimal appending (post_log (Json cats))
               (after (handle decimal appending (post_log (Json cats)) fresh)))
     = Some 200
  /\ vault (after (handle decimal appending (post_log (Json cats))
                     (after (handle decimal appending (post_log (Json cats))
                               fresh))))
     = vault (after (handle decimal appending (post_log (Json cats)) fresh)).
Proof. repeat split. Qed.

(** The body [{}]: every field is [undefined], and is logged as such. *)
Example empty_object_is_logged :
  effects (handle decimal appending (post_log (Json (JObject []))) fresh)
  = [VaultCreate "SearchLog.md"
       ("- undefined" +:+ TAB +:+ "— undefined [↗️](undefined)" +:+ LF);
     Push JUndefined;
     WriteHead 200 CORS;
     ResEnd].
Proof. reflexivity. Qed.

(** The duplicate test is exact: after [cats], the query [Cats] is new. *)
Example case_matters :
  treated_as_duplicate
    (after (handle decimal appending (post_log (Json cats)) fresh))
    (post_log (Json (event_of "Cats")))
  = false
  /\ treated_as_duplicate
       (after (handle decimal appending (post_log (Json cats)) fresh))
       (post_log (Json (event_of "cats")))
     = true.
Proof. split; reflexivity. Qed.

(** C2 fails as stated, both ways: the body [{}] is not of the expected
    shape and is answered 200 (a line of [undefined]s is written); the event
    [cats] is of the shape and is answered 400 when [create] rejects. *)
Lemma shape_does_not_decide_the_status :
  ~ (exists q u ts, is_event (JObject []) q u ts)
  /\ status (handle decimal appending (post_log (Json (JObject []))) fresh)
     = Some 200
  /\ is_event cats "cats" "https://x/?q=cats" (of_Z 1700000000000)
  /\ status (handle decimal orphan (post_log (Json cats)) fresh) = Some 400.
Proof.
  split; [| split; [| split]].
  - intros (q & u & ts & props & Hprops & Hq & _).
    injection Hprops as <-. discriminate.
  - reflexivity.
  - exists [("query", JString "cats");
            ("url", JString "https://x/?q=cats");
            ("timestamp", JNumber (of_Z 1700000000000))].
    repeat split.
  - reflexivity.
Qed.

(** C3 fails as stated: for the accepted event [cats] the first effect is
    the [create] of the note and the [push] comes second, so the buffer is
    not changed before the commit. *)
Lemma record_does_not_come_first :
  status (handle decimal appending (post_log (Json cats)) fresh) = Some 200
  /\ effects (handle decimal appending (post_log (Json cats)) fresh) !! 0
     = Some (VaultCreate "SearchLog.md"
               (event_line decimal (of_Z 1700000000000) "cats"
                  "https://x/?q=cats"))
  /\ effects (handle decimal appending (post_log (Json cats)) fresh) !! 1
     = Some (Push (JString "cats"))
  /\ ~ precedes buffer_effect vault_effect
         (effects (handle decimal appending (post_log (Json cats)) fresh)).
Proof.
  repeat split.
  intros Hfirst.
  specialize (Hfirst 1 0 (Push (JString "cats"))
                (VaultCreate "SearchLog.md"
                   (event_line decimal (of_Z 1700000000000) "cats"
                      "https://x/?q=cats"))
                eq_refl eq_refl eq_refl eq_refl).
  lia.
Qed.

(** The order of commit and record at the event [cats] in a fresh state. *)
Lemma commit_comes_before_record_witness :
  destructure cats
  = Some (JString "cats", JString "https://x/?q=cats",
          JNumber (of_Z 1700000000000))
  /\ includes (recentQueries fresh) (JString "cats") = false
  /\ status (handle decimal appending (post_log (Json cats)) fresh) = Some 200
  /\ precedes vault_effect buffer_effect
       (effects (handle decimal appending (post_log (Json cats)) fresh)).
Proof.
  split; [reflexivity |]. split; [reflexivity |]. split; [reflexivity |].
  exact (proj2 (commit_comes_before_record decimal appending cats
                  (JString "cats") (JString "https://x/?q=cats")
                  (JNumber (of_Z 1700000000000)) fresh
                  eq_refl eq_refl eq_refl)).
Defined.

(** [cats] sent twice to a fresh state: one line is written. *)
Lemma duplicate_query_is_answered_and_dropped_witness :
  destructure cats
  = Some (JString "cats", JString "https://x/?q=cats",
          JNumber (of_Z 1700000000000))
  /\ status (handle decimal appending (post_log (Json cats)) fresh) = Some 200
  /\ writes (effects (handle decimal appending (post_log (Json cats)) fresh)
             ++ effects (handle decimal appending (post_log (Json cats))
                           (after (handle decimal appending
                                     (post_log (Json cats)) fresh))))
     = 1.
Proof.
  split; [reflexivity |]. split; [reflexivity |].
  destruct (duplicate_query_is_answered_and_dropped decimal appending
              appending cats cats "cats" _ _ _ _ fresh eq_refl eq_refl)
    as (_ & _ & Hone).
  apply Hone.
  - reflexivity.
  - intros Hin. apply elem_of_nil in Hin. exact Hin.
  - discriminate.
Defined.

(** Three distinct queries from the empty buffer. *)
Lemma buffer_is_a_bounded_fifo_witness :
  recentQueries fresh = []
  /\ length (recentQueries (run decimal three fresh)) <= MAX_RECENT
  /\ never_duplicate decimal three fresh.
Proof.
  split; [reflexivity |].
  destruct (buffer_is_a_bounded_fifo decimal three fresh eq_refl)
    as (_ & Hlen & _ & Hnever).
  split; [exact Hlen |].
  apply (Hnever ["a"; "b"; "c"]).
  - repeat constructor;
      (eexists _, _, _; split; [reflexivity |]; eexists; repeat split).
  - repeat (apply NoDup_cons_2;
            [ intros Hin;
              repeat (apply elem_of_cons in Hin as [Heq | Hin];
                      [discriminate Heq |]);
              apply elem_of_nil in Hin; exact Hin
            | ]).
    apply NoDup_nil_2.
  - cbn. unfold MAX_RECENT. lia.
Defined.

(** [cats] in prepend mode on a note that reads [old]. *)
Lemma commit_writes_the_line_witness :
  is_event cats "cats" "https://x/?q=cats" (of_Z 1700000000000)
  /\ (JString "cats" ∉ recentQueries (with_note "old"))
  /\ commit_rejects prepending (with_note "old") = false
  /\ vault (after (handle decimal prepending (post_log (Json cats))
                     (with_note "old")))
     = <["SearchLog.md" :=
           TFile (event_line decimal (of_Z 1700000000000) "cats"
                    "https://x/?q=cats" +:+ "old")]>
         (vault (with_note "old")).
Proof.
  assert (Hev : is_event cats "cats" "https://x/?q=cats" (of_Z 1700000000000)).
  { eexists. repeat split. }
  assert (Hnew : JString "cats" ∉ recentQueries (with_note "old")).
  { intros Hin. apply elem_of_nil in Hin. exact Hin. }
  split; [exact Hev |]. split; [exact Hnew |]. split; [reflexivity |].
  exact (proj2 (commit_writes_the_line decimal prepending cats "cats"
                  "https://x/?q=cats" (of_Z 1700000000000) (with_note "old")
                  Hev Hnew eq_refl)).
Defined.

(** [cats] when [SearchLog.md] is a folder. *)
Lemma folder_target_is_skipped_witness :
  vault with_folder !! getLogFileName appending = Some TFolder
  /\ status (handle decimal appending (post_log (Json cats)) with_folder)
     = Some 200
  /\ Forall (fun e => vault_effect e = false)
            (effects (handle decimal appending (post_log (Json cats))
                        with_folder)).
Proof.
  split; [reflexivity |].
  destruct (folder_target_is_skipped decimal appending with_folder eq_refl)
    as [Hany Hevent].
  split.
  - apply (Hevent cats "cats" "https://x/?q=cats" (of_Z 1700000000000)).
    + eexists. repeat split.
    + intros Hin. apply elem_of_nil in Hin. exact Hin.
  - apply (Hany (post_log (Json cats))).
Defined.

(** A body that is not JSON. *)
Lemma error_leaves_the_buffer_witness :
  status (handle decimal appending (post_log Malformed) fresh) = Some 400
  /\ recentQueries (after (handle decimal appending (post_log Malformed) fresh))
     = recentQueries fresh.
Proof.
  split; [reflexivity |].
  exact (proj1 (error_leaves_the_buffer decimal appending
                  (post_log Malformed) fresh eq_refl)).
Defined.

(** [cats] twice when [SearchLog.md] is a folder. *)
Lemma dropped_event_is_still_recorded_witness :
  vault with_folder !! getLogFileName appending = Some TFolder
  /\ is_event cats "cats" "https://x/?q=cats" (of_Z 1700000000000)
  /\ (JString "cats" ∉ recentQueries with_folder)
  /\ JString "cats"
     ∈ recentQueries (after (handle decimal appending (post_log (Json cats))
                               with_folder))
  /\ effects (handle decimal appending (post_log (Json cats))
                (after (handle decimal appending (post_log (Json cats))
                          with_folder)))
     = [WriteHead 200 CORS; ResEnd].
Proof.
  assert (Hev : is_event cats "cats" "https://x/?q=cats" (of_Z 1700000000000)).
  { eexists. repeat split. }
  assert (Hnew : JString "cats" ∉ recentQueries with_folder).
  { intros Hin. apply elem_of_nil in Hin. exact Hin. }
  split; [reflexivity |]. split; [exact Hev |]. split; [exact Hnew |].
  destruct (dropped_event_is_still_recorded decimal appending appending
              cats cats "cats" _ _ _ _ with_folder eq_refl Hev Hev Hnew)
    as (Hin & _ & _ & _ & Hdropped & _).
  split; [exact Hin | exact Hdropped].
Defined.

(** The plugin listens on 27123, the port of its settings, and the port
    field is set to 3000, which another process holds: the service is back on
    27123. *)
Lemma rebind_goes_back_when_the_settings_are_in_step :
  SettingTab.listening
    (SettingTab.onChange untranslated decimal port_3000_taken
       (of_Z 3000) loaded)
  = [(0, of_Z 27123)]
  /\ SettingTab.portErrorEl
       (SettingTab.onChange untranslated decimal port_3000_taken
          (of_Z 3000) loaded)
     = "⚠ settings.error.port_used".
Proof.
  destruct (rollback_goes_by_the_port_of_the_settings untranslated decimal
              port_3000_taken loaded 0 (of_Z 27123) (of_Z 27123) (of_Z 3000)
              eq_refl eq_refl eq_refl eq_refl eq_refl)
    as (_ & Hlisten & _ & _ & _ & Herror).
  split; [exact Hlisten | exact Herror].
Qed.

(** C1. The rollback does not always reopen the old listener on the port it
    had. The plugin is loaded on 27123. The port field is set to 8080, which
    binds, and [saveData] rejects: the [catch] block closes the new server
    and the old one listens on 27123 again, but the settings keep 8080
    ([settings.port] is assigned before the save is awaited and the [catch]
    block does not restore it). The port field is then set to 3000, which
    another process holds: the bind fails with [EADDRINUSE], the error shown
    is that of [settings.error.port_used], and the old server is reopened on
    8080, the port read from the settings, not on 27123: the service no
    longer answers on the port it had before this rebind. *)
Theorem stale_port_defeats_the_rollback :
  let st1 :=
    SettingTab.onChange untranslated decimal LogProps.save_fails
      (of_Z 8080) loaded in
  let st2 :=
    SettingTab.onChange untranslated decimal port_3000_taken (of_Z 3000) st1 in
  SettingTab.listening loaded = [(0, of_Z 27123)]
  /\ SettingTab.settings_port loaded = of_Z 27123
  /\ SettingTab.server st1 = Some 0
  /\ SettingTab.listening st1 = [(0, of_Z 27123)]
  /\ SettingTab.reachable (of_Z 27123) st1 = true
  /\ SettingTab.settings_port st1 = of_Z 8080
  /\ SettingTab.bind_error port_3000_taken (of_Z 3000)
     = Some SettingTab.EADDRINUSE
  /\ SettingTab.server st2 = Some 0
  /\ SettingTab.listening st2 = [(0, of_Z 8080)]
  /\ SettingTab.reachable (of_Z 27123) st2 = false
  /\ SettingTab.reachable (of_Z 8080) st2 = true
  /\ SettingTab.settings_port st2 = of_Z 8080
  /\ SettingTab.text_value st2 = Some "8080"
  /\ SettingTab.portErrorEl st2 = "⚠ settings.error.port_used".
Proof.
  intros st1 st2.
  assert (Hserver : SettingTab.server st1 = Some 0) by reflexivity.
  assert (Hlisten : SettingTab.listening st1 = [(0, of_Z 27123)])
    by reflexivity.
  assert (Hport : SettingTab.settings_port st1 = of_Z 8080) by reflexivity.
  assert (Hfree : SettingTab.bind_error port_3000_taken (of_Z 8080) = None)
    by reflexivity.
  assert (Hvalid : validatePort untranslated (of_Z 3000) = None)
    by reflexivity.
  pose proof (rollback_goes_by_the_port_of_the_settings untranslated decimal
                port_3000_taken st1 0 (of_Z 8080) (of_Z 27123) (of_Z 3000)
                Hserver Hlisten Hport Hfree Hvalid)
    as (Hserver2 & Hlisten2 & Hreach2 & Hport2 & Hvalue2 & Herror2).
  fold st2 in Hserver2, Hlisten2, Hreach2, Hport2, Hvalue2, Herror2.
  split; [reflexivity |]. split; [reflexivity |].
  split; [exact Hserver |]. split; [exact Hlisten |].
  split; [reflexivity |]. split; [exact Hport |].
  split; [reflexivity |]. split; [exact Hserver2 |].
  split; [exact Hlisten2 |].
  split; [rewrite Hreach2; reflexivity |].
  split; [rewrite Hreach2; reflexivity |].
  split; [exact Hport2 |]. split; [exact Hvalue2 | exact Herror2].
Qed.

End Examples.

(** * Further properties *)

(** ** String methods *)

Section StrBytes.
Import Str NameProps.
#[local] Open Scope nat_scope.

Variable w2 : ascii -> ascii -> bool.
Variable w3 : ascii -> ascii -> ascii -> bool.

Lemma strip_unfold l :
  strip w2 w3 l
  = match l with
    | [] => []
    | a :: r1 =>
        if ws1 a then strip w2 w3 r1
        else
          match r1 with
          | [] => l
          | b :: r2 =>
              if w2 a b then strip w2 w3 r2
              else
                match r2 with
                | [] => l
                | c :: r3 => if w3 a b c then strip w2 w3 r3 else l
                end
          end
    end.
Proof. destruct l; reflexivity. Qed.

(** Induction on the length, for a function that steps over one, two or
    three bytes. *)
Lemma bytes_length_ind (P : list ascii -> Prop) :
  (forall l, (forall l', length l' < length l -> P l') -> P l) ->
  forall l, P l.
Proof.
  intros Hstep l.
  assert (H : forall n l, length l < n -> P l).
  { induction n as [| n IH]; intros l' Hlt; [lia |].
    apply Hstep. intros l'' Hlt'. apply IH. lia. }
  apply (H (S (length l))). lia.
Qed.

Lemma strip_suffix l : exists p, l = p ++ strip w2 w3 l.
Proof.
  induction l as [l IH] using bytes_length_ind.
  rewrite strip_unfold.
  destruct l as [| a [| b [| c r3]]]; try (exists []; reflexivity).
  - cbn [strip]. destruct (ws1 a); [exists [a] | exists []]; reflexivity.
  - destruct (ws1 a).
    { destruct (IH [b]) as [p Hp]; [cbn; lia |].
      exists (a :: p). cbn [app]. rewrite <- Hp. reflexivity. }
    destruct (w2 a b); [exists [a; b] | exists []]; reflexivity.
  - destruct (ws1 a).
    { destruct (IH (b :: c :: r3)) as [p Hp]; [cbn; lia |].
      exists (a :: p). cbn [app]. rewrite <- Hp. reflexivity. }
    destruct (w2 a b).
    { destruct (IH (c :: r3)) as [p Hp]; [cbn; lia |].
      exists (a :: b :: p). cbn [app]. rewrite <- Hp. reflexivity. }
    destruct (w3 a b c); [| exists []; reflexivity].
    destruct (IH r3) as [p Hp]; [cbn; lia |].
    exists (a :: b :: c :: p). cbn [app]. rewrite <- Hp. reflexivity.
Qed.

Lemma strip_length l : length (strip w2 w3 l) <= length l.
Proof.
  destruct (strip_suffix l) as [p Hp].
  rewrite Hp at 2. rewrite length_app. lia.
Qed.

Lemma strip_head l : ws_head w2 w3 l = false -> strip w2 w3 l = l.
Proof.
  destruct l as [| a [| b [| c r3]]]; cbn; try reflexivity.
  - intros H. rewrite orb_false_r in H. rewrite H. reflexivity.
  - intros H. apply orb_false_elim in H as [H1 H2].
    rewrite orb_false_r in H2. rewrite H1, H2. reflexivity.
  - intros H. apply orb_false_elim in H as [H1 H2].
    apply orb_false_elim in H2 as [H2 H3]. rewrite H1, H2, H3. reflexivity.
Qed.

Lemma strip_no_head l : ws_head w2 w3 (strip w2 w3 l) = false.
Proof.
  induction l as [l IH] using bytes_length_ind.
  rewrite strip_unfold.
  destruct l as [| a [| b [| c r3]]]; try reflexivity.
  - destruct (ws1 a) eqn:H1; [reflexivity |]. cbn. rewrite H1. reflexivity.
  - destruct (ws1 a) eqn:H1; [apply IH; cbn; lia |].
    destruct (w2 a b) eqn:H2; [reflexivity |]. cbn. rewrite H1, H2. reflexivity.
  - destruct (ws1 a) eqn:H1; [apply IH; cbn; lia |].
    destruct (w2 a b) eqn:H2; [apply IH; cbn; lia |].
    destruct (w3 a b c) eqn:H3; [apply IH; cbn; lia |].
    cbn. rewrite H1, H2, H3. reflexivity.
Qed.

Lemma strip_idem l : strip w2 w3 (strip w2 w3 l) = strip w2 w3 l.
Proof. apply strip_head, strip_no_head. Qed.

Lemma strip_fixed_head l : strip w2 w3 l = l -> ws_head w2 w3 l = false.
Proof. intros H. rewrite <- H. apply strip_no_head. Qed.

(** White space at the head of a prefix is white space at the head of the
    whole. *)
Lemma ws_head_app p q :
  ws_head w2 w3 (p ++ q) = false -> ws_head w2 w3 p = false.
Proof.
  destruct p as [| a [| b [| c r3]]]; cbn; try reflexivity.
  - intros H. apply orb_false_elim in H as [H1 _]. rewrite H1. reflexivity.
  - destruct q; [auto |].
    intros H. apply orb_false_elim in H as [H1 H2].
    apply orb_false_elim in H2 as [H2 _]. rewrite H1, H2. reflexivity.
  - auto.
Qed.

End StrBytes.

Section TrimBytes.
Import Str NameProps.
#[local] Open Scope nat_scope.

Lemma trim_bytes_clean l : clean (trim_bytes l).
Proof.
  unfold clean, trim_bytes, trimEnd, trimStart. split.
  - destruct (strip_suffix (fun a b => ws2 b a) (fun a b c => ws3 c b a)
                (rev (strip ws2 ws3 l))) as [p Hp].
    apply (ws_head_app _ _ _ (rev p)).
    rewrite <- rev_app_distr, <- Hp, rev_involutive.
    apply strip_no_head.
  - rewrite rev_involutive. apply strip_no_head.
Qed.

Lemma clean_trim_bytes l : clean l -> trim_bytes l = l.
Proof.
  intros [Hhead Hlast]. unfold trim_bytes, trimEnd, trimStart.
  rewrite (strip_head _ _ l Hhead), (strip_head _ _ (rev l) Hlast).
  apply rev_involutive.
Qed.

Lemma trim_bytes_idem l : trim_bytes (trim_bytes l) = trim_bytes l.
Proof. apply clean_trim_bytes, trim_bytes_clean. Qed.

Lemma trim_bytes_fixed l : trim_bytes l = l -> clean l.
Proof. intros H. rewrite <- H. apply trim_bytes_clean. Qed.

(** A clean name stays clean when [.md] is appended. *)
Lemma clean_app_md l : clean l -> clean (l ++ dot_md).
Proof.
  intros [Hhead _]. split.
  - destruct l as [| a [| b [| c r3]]]; cbn in *; try reflexivity.
    + rewrite orb_false_r in Hhead. rewrite Hhead.
      unfold ws2, ws3. cbn. rewrite !andb_false_r. reflexivity.
    + apply orb_false_elim in Hhead as [H1 H2].
      rewrite orb_false_r in H2. rewrite H1, H2.
      unfold ws3. cbn. rewrite !andb_false_r. reflexivity.
    + assumption.
  - rewrite rev_app_distr. cbn [rev dot_md app].
    cbn [ws_head]. unfold ws1, ws2, ws3. cbn.
    rewrite ?andb_false_r. reflexivity.
Qed.

End TrimBytes.

Section EndsWith.
Import Str NameProps.
#[local] Open Scope nat_scope.

Lemma eqb_bytes_eq l l' : eqb_bytes l l' = true <-> l = l'.
Proof.
  revert l'. induction l as [| a l IH]; intros [| b l']; cbn;
    try (split; [discriminate | congruence]); [tauto |].
  rewrite andb_true_iff, Ascii.eqb_eq, IH.
  split; [intros [-> ->]; reflexivity | intros [= -> ->]; auto].
Qed.

Lemma endsWith_bytes_spec l s :
  endsWith_bytes l s = true <-> exists p, l = p ++ s.
Proof.
  unfold endsWith_bytes. rewrite andb_true_iff, Nat.leb_le, eqb_bytes_eq.
  split.
  - intros [Hlen Hdrop]. exists (take (length l - length s) l).
    remember (length l - length s) as n eqn:Hn. clear Hn.
    rewrite <- Hdrop. symmetry. apply take_drop.
  - intros [p ->]. rewrite length_app. split; [lia |].
    replace (length p + length s - length s) with (length p) by lia.
    rewrite drop_app_length. reflexivity.
Qed.

Lemma toLowerCase_bytes_app_md l :
  toLowerCase_bytes (l ++ dot_md) = toLowerCase_bytes l ++ dot_md.
Proof. unfold toLowerCase_bytes. rewrite map_app. reflexivity. Qed.

Lemma md_after_append l :
  endsWith_bytes (toLowerCase_bytes (l ++ dot_md)) dot_md = true.
Proof.
  rewrite toLowerCase_bytes_app_md. apply endsWith_bytes_spec. eauto.
Qed.

(** A name that ends with [.md] in some case is a stem and three bytes that
    lower-case to [.md]; [slice(0, -3)] is the stem. *)
Lemma md_split l :
  endsWith_bytes (toLowerCase_bytes l) dot_md = true ->
  exists stem ext,
    l = stem ++ ext
    /\ length ext = 3
    /\ toLowerCase_bytes ext = dot_md
    /\ slice_to_end_minus 3 l = stem.
Proof.
  intros H. apply endsWith_bytes_spec in H as [p Hp].
  assert (Hlen : length l = length p + 3).
  { rewrite <- (length_map lower l). fold (toLowerCase_bytes l).
    rewrite Hp, length_app. reflexivity. }
  exists (take (length p) l), (drop (length p) l).
  split; [symmetry; apply take_drop |].
  split; [rewrite length_drop; lia |].
  split.
  - unfold toLowerCase_bytes in *.
    rewrite <- (take_drop (length p) l), map_app in Hp.
    apply app_inj_1 in Hp as [_ Hext]; [exact Hext |].
    rewrite length_map, length_take. lia.
  - unfold slice_to_end_minus. f_equal. lia.
Qed.

Lemma md_not_slash l :
  endsWith_bytes (toLowerCase_bytes l) dot_md = true ->
  endsWith_bytes l ["/"%char] = false /\ l <> [].
Proof.
  intros H. destruct (md_split l H) as (stem & ext & -> & Hlen & Hext & _).
  destruct ext as [| a [| b [| c [| ? ?]]]]; try discriminate.
  split; [| destruct stem; discriminate].
  apply not_true_iff_false. intros Hslash.
  apply endsWith_bytes_spec in Hslash as [p Hp].
  assert (Hc : c = "/"%char).
  { replace (stem ++ [a; b; c]) with ((stem ++ [a; b]) ++ [c]) in Hp
      by (rewrite <- app_assoc; reflexivity).
    apply app_inj_tail in Hp as [_ Hc]. exact Hc. }
  subst c. discriminate.
Qed.

(** *** From bytes to strings *)

Lemma bytes_of_bytes l : bytes (of_bytes l) = l.
Proof. apply list_ascii_of_string_of_list_ascii. Qed.

Lemma of_bytes_bytes s : of_bytes (bytes s) = s.
Proof. apply string_of_list_ascii_of_string. Qed.

Lemma bytes_app s s' : bytes (s +:+ s') = bytes s ++ bytes s'.
Proof.
  unfold bytes. induction s as [| c s IH]; [reflexivity |].
  change (String c s +:+ s') with (String c (s +:+ s')).
  cbn [list_ascii_of_string app]. f_equal. exact IH.
Qed.

Lemma bytes_inj s s' : bytes s = bytes s' -> s = s'.
Proof.
  intros H. rewrite <- (of_bytes_bytes s), <- (of_bytes_bytes s'), H.
  reflexivity.
Qed.

Lemma of_bytes_app l l' : of_bytes (l ++ l') = of_bytes l +:+ of_bytes l'.
Proof.
  apply bytes_inj. rewrite bytes_app, !bytes_of_bytes. reflexivity.
Qed.

Lemma trimmed_clean s : trimmed s <-> clean (bytes s).
Proof.
  unfold trimmed, trim. split.
  - intros H. apply trim_bytes_fixed.
    rewrite <- H at 2. rewrite bytes_of_bytes. reflexivity.
  - intros H. rewrite (clean_trim_bytes _ H). apply of_bytes_bytes.
Qed.

Lemma trim_trimmed s : trimmed (trim s).
Proof.
  apply trimmed_clean. unfold trim. rewrite bytes_of_bytes.
  apply trim_bytes_clean.
Qed.

Lemma trimmed_app_md s : trimmed s -> trimmed (s +:+ ".md").
Proof.
  rewrite !trimmed_clean, bytes_app. apply clean_app_md.
Qed.

Lemma has_md_app_md s : has_md (s +:+ ".md") = true.
Proof.
  unfold has_md, endsWith, toLowerCase.
  rewrite bytes_of_bytes, bytes_app. apply md_after_append.
Qed.

End EndsWith.

Section SplitJoin.
Import Str NameProps.
#[local] Open Scope nat_scope.

Variable sep : ascii.

Lemma split_bytes_nonempty l : split_bytes sep l <> [].
Proof.
  destruct l as [| c r]; cbn; [discriminate |].
  destruct (Ascii.eqb c sep); [discriminate |].
  destruct (split_bytes sep r); discriminate.
Qed.

Lemma split_bytes_no_sep l : ~ In sep l -> split_bytes sep l = [l].
Proof.
  induction l as [| c r IH]; intros Hnot; [reflexivity |].
  cbn. destruct (Ascii.eqb_spec c sep) as [-> | Hne].
  - exfalso. apply Hnot. left. reflexivity.
  - rewrite IH; [reflexivity |]. intros Hin. apply Hnot. right. exact Hin.
Qed.

Lemma split_bytes_app d b :
  split_bytes sep (d ++ sep :: b) = split_bytes sep d ++ split_bytes sep b.
Proof.
  induction d as [| c d IH]; cbn.
  - rewrite Ascii.eqb_refl. reflexivity.
  - destruct (Ascii.eqb c sep); [rewrite IH; reflexivity |].
    rewrite IH.
    destruct (split_bytes sep d) as [| p ps] eqn:Hd; [| reflexivity].
    exfalso. apply (split_bytes_nonempty d). exact Hd.
Qed.

Lemma join_split_bytes l : join_bytes sep (split_bytes sep l) = l.
Proof.
  induction l as [| c r IH]; [reflexivity |].
  cbn [split_bytes]. destruct (Ascii.eqb_spec c sep) as [-> | Hne].
  - destruct (split_bytes sep r) as [| p ps] eqn:Hr.
    + exfalso. apply (split_bytes_nonempty r). exact Hr.
    + cbn in *. rewrite IH. reflexivity.
  - destruct (split_bytes sep r) as [| p [| q ps]] eqn:Hr.
    + exfalso. apply (split_bytes_nonempty r). exact Hr.
    + cbn in *. rewrite IH. reflexivity.
    + cbn in *. rewrite <- IH. reflexivity.
Qed.

(** The parts before the last one, joined again, are what comes before the
    last separator. *)
Lemma parent_bytes d b :
  ~ In sep b ->
  (1 <? length (split_bytes sep (d ++ sep :: b))) = true
  /\ join_bytes sep (removelast (split_bytes sep (d ++ sep :: b))) = d.
Proof.
  intros Hb. rewrite split_bytes_app, (split_bytes_no_sep b Hb). split.
  - apply Nat.ltb_lt. rewrite length_app. cbn.
    destruct (split_bytes sep d) eqn:Hd; [| cbn; lia].
    exfalso. apply (split_bytes_nonempty d). exact Hd.
  - rewrite removelast_last. apply join_split_bytes.
Qed.

Lemma several_parts l :
  (1 <? length (split_bytes sep l)) = true ->
  exists d b, l = d ++ sep :: b /\ ~ In sep b.
Proof.
  intros Hlen.
  destruct (in_dec ascii_dec sep l) as [Hin | Hnot].
  - apply list_elem_of_In, list_elem_of_split_r in Hin
      as (d & b & -> & Hb).
    exists d, b. split; [reflexivity |].
    intros Hin. apply Hb, list_elem_of_In. exact Hin.
  - rewrite (split_bytes_no_sep l Hnot) in Hlen. discriminate.
Qed.

End SplitJoin.

(** ** File names *)

Section Names.
Import Js Settings LoggingServer Str FileNames Main NameProps.
#[local] Open Scope nat_scope.

Lemma removelast_map {A B} (f : A -> B) (l : list A) :
  removelast (map f l) = map f (removelast l).
Proof.
  induction l as [| a [| b l] IH]; [reflexivity | reflexivity |].
  cbn [map removelast] in *. rewrite IH. reflexivity.
Qed.

Lemma map_bytes_of_bytes (l : list (list ascii)) : map bytes (map of_bytes l) = l.
Proof.
  induction l as [| a l IH]; [reflexivity |].
  cbn [map]. rewrite bytes_of_bytes, IH. reflexivity.
Qed.

Lemma parts_of s :
  length (split "/" s) = length (split_bytes "/" (bytes s))
  /\ join "/" (removelast (split "/" s))
     = of_bytes (join_bytes "/" (removelast (split_bytes "/" (bytes s)))).
Proof.
  unfold split, join. split; [apply length_map |].
  rewrite removelast_map, map_bytes_of_bytes. reflexivity.
Qed.

(** [dir/base]: the parent that is looked up is [dir]. *)
Lemma parent_of dir base :
  no_slash base ->
  (1 <? length (split "/" (dir +:+ "/" +:+ base))) = true
  /\ join "/" (removelast (split "/" (dir +:+ "/" +:+ base))) = dir.
Proof.
  intros Hbase.
  destruct (parts_of (dir +:+ "/" +:+ base)) as [-> ->].
  rewrite !bytes_app.
  change (bytes "/" ++ bytes base) with ("/"%char :: bytes base).
  destruct (parent_bytes "/" (bytes dir) (bytes base) Hbase) as [-> ->].
  split; [reflexivity | apply of_bytes_bytes].
Qed.

Lemma parent_exists s :
  (1 <? length (split "/" s)) = true ->
  exists dir base, s = dir +:+ "/" +:+ base /\ no_slash base.
Proof.
  destruct (parts_of s) as [-> _]. intros Hlen.
  destruct (several_parts "/" (bytes s) Hlen) as (d & b & Hs & Hb).
  exists (of_bytes d), (of_bytes b). split.
  - apply bytes_inj. rewrite !bytes_app, !bytes_of_bytes. exact Hs.
  - unfold no_slash. rewrite bytes_of_bytes. exact Hb.
Qed.

Lemma has_md_ext stem ext :
  toLowerCase ext = ".md" ->
  has_md (stem +:+ ext) = true /\ slice_0 3 (stem +:+ ext) = stem.
Proof.
  intros Hext.
  assert (Hb : toLowerCase_bytes (bytes ext) = dot_md).
  { unfold toLowerCase in Hext.
    rewrite <- (bytes_of_bytes (toLowerCase_bytes (bytes ext))), Hext.
    reflexivity. }
  assert (Hlen : length (bytes ext) = 3).
  { rewrite <- (length_map lower). fold (toLowerCase_bytes (bytes ext)).
    rewrite Hb. reflexivity. }
  split.
  - unfold has_md, endsWith, toLowerCase.
    rewrite bytes_of_bytes, bytes_app.
    unfold toLowerCase_bytes in *. rewrite map_app, Hb.
    apply endsWith_bytes_spec. eauto.
  - unfold slice_0, slice_to_end_minus.
    rewrite bytes_app, length_app, Hlen.
    replace (length (bytes stem) + 3 - 3) with (length (bytes stem)) by lia.
    rewrite take_app_length. apply of_bytes_bytes.
Qed.

Lemma has_md_facts s :
  has_md s = true -> s <> "" /\ endsWith s "/" = false.
Proof.
  unfold has_md, endsWith, toLowerCase. rewrite bytes_of_bytes.
  intros H. destruct (md_not_slash _ H) as [Hslash Hne].
  split; [| exact Hslash].
  intros ->. apply Hne. reflexivity.
Qed.

Lemma getLogFileNameFrom_normal input :
  trimmed (getLogFileNameFrom input)
  /\ has_md (getLogFileNameFrom input) = true
  /\ getLogFileNameFrom (getLogFileNameFrom input) = getLogFileNameFrom input.
Proof.
  assert (Hfix : forall r, trimmed r -> has_md r = true ->
                           getLogFileNameFrom r = r).
  { intros r Hr Hmd. unfold getLogFileNameFrom. rewrite Hr.
    unfold has_md in Hmd. rewrite Hmd. reflexivity. }
  assert (Hr : (has_md (trim input) = true
                /\ getLogFileNameFrom input = trim input)
               \/ (has_md (trim input) = false
                   /\ getLogFileNameFrom input = trim input +:+ ".md")).
  { unfold getLogFileNameFrom, has_md.
    destruct (endsWith (toLowerCase (trim input)) ".md"); auto. }
  destruct Hr as [[Hmd ->] | [Hmd ->]].
  - pose proof (trim_trimmed input) as Ht. auto.
  - pose proof (trimmed_app_md _ (trim_trimmed input)) as Ht.
    pose proof (has_md_app_md (trim input)) as Hm. auto.
Qed.

(** X1. The name computed from any input has no white space at its ends and
    ends with [.md] in some case of the letters, so it is never empty and
    never ends with a slash; computing it again changes nothing. *)
Theorem getLogFileNameFrom_is_a_normal_form :
  forall input : string,
    trimmed (getLogFileNameFrom input)
    /\ has_md (getLogFileNameFrom input) = true
    /\ getLogFileNameFrom (getLogFileNameFrom input) = getLogFileNameFrom input
    /\ getLogFileNameFrom input <> ""
    /\ endsWith (getLogFileNameFrom input) "/" = false.
Proof.
  intros input.
  destruct (getLogFileNameFrom_normal input) as (Htrim & Hmd & Hidem).
  destruct (has_md_facts _ Hmd) as [Hne Hslash]. auto.
Qed.

(** X2. A name typed without the extension: the stem stored is the trimmed name,
    and the name used afterwards is the one that was computed from the
    input. *)
Theorem name_without_extension_round_trip :
  forall (name : string) (p : Plugin),
    has_md (trim name) = false ->
    logFileUserPref (set_logFileName name p) = trim name
    /\ logFileName (set_logFileName name p) = trim name +:+ ".md"
    /\ logFileName (set_logFileName name p) = getLogFileNameFrom name.
Proof.
  intros name p Hmd. unfold has_md in Hmd.
  assert (Hpref : logFileUserPref (set_logFileName name p) = trim name).
  { unfold set_logFileName. rewrite Hmd. reflexivity. }
  unfold logFileName. rewrite Hpref.
  unfold getLogFileNameFrom.
  rewrite (trim_trimmed name), Hmd. auto.
Qed.

(** X3. A name typed with the extension, in any case of its letters: the stem
    stored is the name without its last three characters, and the name used
    afterwards is computed from that stem, whereas the name computed from the
    input keeps the extension as typed. For a stem with no white space at
    its end and no further extension the name used is the stem with [.md]
    in lower case. *)
Theorem name_with_extension_is_normalised :
  forall (name stem ext : string) (p : Plugin),
    trim name = stem +:+ ext ->
    toLowerCase ext = ".md" ->
    getLogFileNameFrom name = stem +:+ ext
    /\ logFileUserPref (set_logFileName name p) = stem
    /\ logFileName (set_logFileName name p) = getLogFileNameFrom stem
    /\ (trimmed stem -> has_md stem = false ->
        logFileName (set_logFileName name p) = stem +:+ ".md").
Proof.
  intros name stem ext p Hname Hext.
  destruct (has_md_ext stem ext Hext) as [Hmd Hslice].
  unfold has_md in Hmd.
  assert (Hpref : logFileUserPref (set_logFileName name p) = stem).
  { unfold set_logFileName. rewrite Hname, Hmd. exact Hslice. }
  split; [| split; [exact Hpref | split]].
  - unfold getLogFileNameFrom. rewrite Hname, Hmd. reflexivity.
  - unfold logFileName. rewrite Hpref. reflexivity.
  - intros Hstem Hnone. unfold logFileName. rewrite Hpref.
    unfold getLogFileNameFrom. rewrite Hstem.
    unfold has_md in Hnone. rewrite Hnone. reflexivity.
Qed.

(** *** [validateLogFileName] *)

Lemma eqb_empty s : String.eqb s "" = false <-> s <> "".
Proof.
  destruct (String.eqb_spec s ""); split; congruence.
Qed.

Lemma validateLogFileName_None t p name :
  validateLogFileName t p name = None <->
  trim name <> ""
  /\ endsWith (trim name) "/" = false
  /\ (forall dir base,
         trim name = dir +:+ "/" +:+ base -> no_slash base ->
         files p !! dir = Some TFolder)
  /\ files p !! trim name <> Some TFolder.
Proof.
  unfold validateLogFileName.
  destruct (String.eqb (trim name) "") eqn:Hempty.
  { apply String.eqb_eq in Hempty. split; [discriminate | tauto]. }
  apply eqb_empty in Hempty.
  destruct (endsWith (trim name) "/") eqn:Hslash.
  { split; [discriminate | intros (_ & Hno & _); discriminate]. }
  destruct (1 <? length (split "/" (trim name))) eqn:Hparts.
  - destruct (parent_exists _ Hparts) as (dir & base & Hname & Hbase).
    rewrite Hname at 1.
    destruct (parent_of dir base Hbase) as [_ ->].
    destruct (files p !! dir) as [[data |] |] eqn:Hdir.
    + split; [discriminate |].
      intros (_ & _ & Hparent & _).
      rewrite (Hparent dir base Hname Hbase) in Hdir. discriminate.
    + assert (Hparent : forall dir' base',
                 trim name = dir' +:+ "/" +:+ base' -> no_slash base' ->
                 files p !! dir' = Some TFolder).
      { intros dir' base' Hname' Hbase'.
        destruct (parent_of dir' base' Hbase') as [_ Hd'].
        destruct (parent_of dir base Hbase) as [_ Hd].
        rewrite <- Hname' in Hd'. rewrite <- Hname in Hd.
        rewrite <- Hd', Hd. exact Hdir. }
      destruct (files p !! trim name) as [[data |] |] eqn:Hfile;
        (split; [try discriminate; intros _; repeat split; auto; discriminate
                | try reflexivity; intros (_ & _ & _ & Hnot);
                  contradiction Hnot; reflexivity]).
    + split; [discriminate |].
      intros (_ & _ & Hparent & _).
      rewrite (Hparent dir base Hname Hbase) in Hdir. discriminate.
  - assert (Hparent : forall dir' base',
               trim name = dir' +:+ "/" +:+ base' -> no_slash base' ->
               files p !! dir' = Some TFolder).
    { intros dir' base' Hname' Hbase'.
      destruct (parent_of dir' base' Hbase') as [Hlen _].
      rewrite <- Hname', Hparts in Hlen. discriminate. }
    destruct (files p !! trim name) as [[data |] |] eqn:Hfile;
      (split; [try discriminate; intros _; repeat split; auto; discriminate
              | try reflexivity; intros (_ & _ & _ & Hnot);
                contradiction Hnot; reflexivity]).
Qed.

(** X4. [validateLogFileName] returns [null] exactly for a name that, once
    trimmed, is not empty, does not end with a slash, has a folder at
    everything before its last slash when it has one, and is not itself a
    folder; a note at the name, or nothing, are both accepted. An empty name
    gets the first message and a name that ends with a slash the second,
    whatever the vault holds. *)
Theorem validateLogFileName_accepts_exactly :
  forall (t : string -> list (string * JsValue) -> string)
         (p : Plugin) (name : string),
    (validateLogFileName t p name = None <->
     trim name <> ""
     /\ endsWith (trim name) "/" = false
     /\ (forall dir base,
            trim name = dir +:+ "/" +:+ base -> no_slash base ->
            files p !! dir = Some TFolder)
     /\ files p !! trim name <> Some TFolder)
    /\ (trim name = "" ->
        validateLogFileName t p name
        = Some (t "settings.error.note.name.rule1" []))
    /\ (trim name <> "" -> endsWith (trim name) "/" = true ->
        validateLogFileName t p name
        = Some (t "settings.error.note.name.rule2" [])).
Proof.
  intros t p name. split; [apply validateLogFileName_None |].
  unfold validateLogFileName. split.
  - intros ->. reflexivity.
  - intros Hne Hslash. apply eqb_empty in Hne. rewrite Hne, Hslash.
    reflexivity.
Qed.

(** X5. A name computed by [getLogFileNameFrom] never meets the first two rules
    of [validateLogFileName]: it is accepted exactly when its parent, if it
    has one, is a folder and it is not a folder itself. An input of white
    space alone is computed as [.md] and judged like any other name. *)
Theorem computed_name_skips_the_first_rules :
  forall (t : string -> list (string * JsValue) -> string)
         (p : Plugin) (input : string),
    (validateLogFileName t p (getLogFileNameFrom input) = None <->
     (forall dir base,
         getLogFileNameFrom input = dir +:+ "/" +:+ base -> no_slash base ->
         files p !! dir = Some TFolder)
     /\ files p !! getLogFileNameFrom input <> Some TFolder)
    /\ (trim input = "" -> getLogFileNameFrom input = ".md").
Proof.
  intros t p input.
  destruct (getLogFileNameFrom_normal input) as (Htrim & Hmd & _).
  destruct (has_md_facts _ Hmd) as [Hne Hslash].
  split.
  - rewrite validateLogFileName_None, Htrim. tauto.
  - intros Hempty. unfold getLogFileNameFrom. rewrite Hempty. reflexivity.
Qed.

End Names.

(** ** The log file of the plugin *)

Section LogFile.
Import Js Settings LoggingServer Str FileNames Main NameProps.
#[local] Open Scope nat_scope.

Variable t : string -> list (string * JsValue) -> string.

Lemma initLogFile_cases rejects path p :
  (files p !! path <> None /\ initLogFile t rejects path p = (p, None))
  \/ (files p !! path = None /\ rejects = true
      /\ initLogFile t rejects path p = (p, Some (Rejected Create)))
  \/ (files p !! path = None /\ rejects = false
      /\ snd (initLogFile t rejects path p) = None
      /\ files (fst (initLogFile t rejects path p))
         = <[path := TFile ""]> (files p)
      /\ logFileUserPref (fst (initLogFile t rejects path p))
         = logFileUserPref p
      /\ saved (fst (initLogFile t rejects path p)) = saved p
      /\ fileErrorEl (fst (initLogFile t rejects path p)) = fileErrorEl p).
Proof.
  unfold initLogFile.
  destruct (files p !! path) eqn:Hpath; [left; split; [discriminate | reflexivity] |].
  right. destruct rejects; [left | right]; repeat split.
Qed.

(** X6. [initLogFile] never changes or removes what the vault holds. When it
    returns, something is at the path; it throws exactly when nothing is
    there and [create] rejects, and then the vault is as before. What it
    creates is an empty note, and a second call does nothing. *)
Theorem initLogFile_only_adds_an_empty_note :
  forall (rejects : bool) (path : string) (p : Plugin),
    (forall q x, files p !! q = Some x ->
                 files (fst (initLogFile t rejects path p)) !! q = Some x)
    /\ (snd (initLogFile t rejects path p) = None ->
        files (fst (initLogFile t rejects path p)) !! path <> None)
    /\ (snd (initLogFile t rejects path p) <> None <->
        files p !! path = None /\ rejects = true)
    /\ (snd (initLogFile t rejects path p) <> None ->
        fst (initLogFile t rejects path p) = p)
    /\ (files p !! path = None -> rejects = false ->
        files (fst (initLogFile t rejects path p)) !! path = Some (TFile ""))
    /\ (forall rejects',
           snd (initLogFile t rejects path p) = None ->
           initLogFile t rejects' path (fst (initLogFile t rejects path p))
           = (fst (initLogFile t rejects path p), None)).
Proof.
  intros rejects path p.
  destruct (initLogFile_cases rejects path p)
    as [[Hsome Hr] | [(Hnone & Hrej & Hr) | (Hnone & Hrej & Hs & Hf & _)]].
  - rewrite Hr. cbn [fst snd]. repeat split; try congruence.
    + intros [Habs _]. contradiction.
    + intros rejects' _. unfold initLogFile.
      destruct (files p !! path); [reflexivity | contradiction Hsome; reflexivity].
  - rewrite Hr. cbn [fst snd]. repeat split; try congruence; try discriminate.
  - rewrite Hs, Hf. repeat split; try congruence.
    + intros q x Hq. rewrite lookup_insert_ne; [exact Hq |].
      intros <-. congruence.
    + rewrite lookup_insert_eq. discriminate.
    + intros [_ Habs]. congruence.
    + intros _ _. apply lookup_insert_eq.
    + intros rejects' _.
      destruct (initLogFile_cases rejects' path (fst (initLogFile t rejects path p)))
        as [[_ Hr'] | [(Hnone' & _) | (Hnone' & _)]];
        [exact Hr' | |];
        rewrite Hf, lookup_insert_eq in Hnone'; discriminate.
Qed.


(** X8. At load a file name that is refused only raises a notice: the listener
    is started all the same. A [create] that rejects ends the callback: the
    listener is not started. Otherwise something is at the log file name when
    the listener starts. *)
Theorem onLayoutReady_starts_the_listener_unless_create_rejects :
  forall (out : SettingTab.Outside) (rejects : bool) (p : Plugin)
         (st : SettingTab.State),
    (SettingTab.truthy (validateLogFileName t p (logFileName p)) = true ->
     files (fst (onLayoutReady t out rejects p st)) = files p
     /\ snd (onLayoutReady t out rejects p st) = SettingTab.onload out st)
    /\ (SettingTab.truthy (validateLogFileName t p (logFileName p)) = false ->
        files p !! logFileName p = None -> rejects = true ->
        onLayoutReady t out rejects p st = (p, st))
    /\ (SettingTab.truthy (validateLogFileName t p (logFileName p)) = false ->
        files p !! logFileName p <> None \/ rejects = false ->
        files (fst (onLayoutReady t out rejects p st)) !! logFileName p <> None
        /\ snd (onLayoutReady t out rejects p st) = SettingTab.onload out st).
Proof.
  intros out rejects p st. unfold onLayoutReady.
  split; [| split].
  - intros ->. cbn.
    destruct (SettingTab.truthy _); split; reflexivity.
  - intros -> Hnone ->.
    destruct (initLogFile_cases true (logFileName p) p)
      as [[Hsome _] | [(_ & _ & ->) | (_ & Habs & _)]];
      [contradiction | reflexivity | discriminate].
  - intros -> Hor.
    destruct (initLogFile_cases rejects (logFileName p) p)
      as [[Hsome Hr] | [(Hnone & Hrej & _) | (Hnone & Hrej & Hs & Hf & _)]].
    + rewrite Hr.
      destruct (SettingTab.truthy _); cbn; split; auto.
    + destruct Hor as [Hsome | Hsettle]; [contradiction | congruence].
    + destruct (initLogFile t rejects (logFileName p) p) as [p2 thrown].
      cbn [fst snd] in *. subst thrown.
      destruct (SettingTab.truthy _); cbn [fst snd Notice files];
        rewrite Hf, lookup_insert_eq; split; try reflexivity; discriminate.
Qed.

End LogFile.

(** ** The handler, any request *)

Section Requests.
Import Js Settings LoggingServer Props Paths LogProps.
#[local] Open Scope nat_scope.

Variable nts : number -> string.

Lemma Committed_no_response ctx w ln done res :
  Committed ctx w ln done res ->
  Forall (fun e => response_effect e = false) done.
Proof. intros H; destruct H; repeat constructor. Qed.

Lemma recording_no_response q buf :
  Forall (fun e => response_effect e = false) (recording q buf).
Proof. unfold recording. destruct (MAX_RECENT <? _); repeat constructor. Qed.

(** X9. Every request is answered, and once: the effects of the handler end
    with one [writeHead] and then [end], and hold no other call of either.
    The status is 200, 400 or 404, the headers allow every origin, and no
    exception leaves the handler. *)
Theorem every_request_is_answered_once :
  forall (ctx : LogContext) (req : IncomingMessage) (w : World),
  exists done code headers,
    effects (handle nts ctx req w) = done ++ [WriteHead code headers; ResEnd]
    /\ Forall (fun e => response_effect e = false) done
    /\ (code = 200 \/ code = 400 \/ code = 404)
    /\ In ("Access-Control-Allow-Origin", "*") headers
    /\ (forall e, completion (handle nts ctx req w) <> Throw e).
Proof.
  intros ctx req w.
  destruct (handle_cases nts ctx req w) as [-> | [-> | Hs]].
  - exists [], 200, CORS_preflight. cbn. repeat split; auto; discriminate.
  - exists [], 404, CORS. cbn. repeat split; auto; discriminate.
  - destruct Hs as [| v Hf | v q u ts Hf Hdup | v q u ts Hf Hdup Hline
                    | v q u ts ln done v' Hf Hdup Hline Hc
                    | v q u ts ln done e Hf Hdup Hline Hc].
    + exists [parse_write_error SyntaxError], 400, CORS.
      cbn. repeat split; auto; try discriminate; repeat constructor.
    + exists [parse_write_error TypeError], 400, CORS.
      cbn. repeat split; auto; try discriminate; repeat constructor.
    + exists [], 200, CORS. cbn. repeat split; auto; discriminate.
    + exists [parse_write_error TypeError], 400, CORS.
      cbn. repeat split; auto; try discriminate; repeat constructor.
    + exists (done ++ recording q (recentQueries w)), 200, CORS.
      unfold accepted. cbn [effects completion].
      rewrite <- app_assoc. repeat split; auto; try discriminate.
      * apply Forall_app. split;
          [exact (Committed_no_response _ _ _ _ _ Hc)
          | apply recording_no_response].
      * cbn. auto.
    + exists (done ++ [parse_write_error e]), 400, CORS.
      unfold failed. cbn [effects completion].
      rewrite <- app_assoc. repeat split; auto; try discriminate.
      * apply Forall_app. split;
          [exact (Committed_no_response _ _ _ _ _ Hc) | repeat constructor].
      * cbn. auto.
Qed.

(** X10. Only an accepted event changes anything: a request that is not
    [POST /log], a request answered 400, and a request with a query of the
    buffer leave the vault and the buffer as they were. [OPTIONS] is
    answered 200 on every path; every other request that is not a [POST]
    to exactly [/log] is answered 404. *)
Theorem only_an_accepted_event_changes_the_world :
  forall (ctx : LogContext) (req : IncomingMessage) (w : World),
    (after (handle nts ctx req w) <> w ->
     method req = "POST" /\ url req = "/log"
     /\ status (handle nts ctx req w) = Some 200
     /\ treated_as_duplicate w req = false)
    /\ (method req = "OPTIONS" -> handle nts ctx req w = preflight w)
    /\ (method req <> "OPTIONS" ->
        method req <> "POST" \/ url req <> "/log" ->
        handle nts ctx req w = not_found w).
Proof.
  intros ctx req w. split; [| split].
  - intros Hchanged.
    unfold handle, createHttpHandler in *.
    destruct (String.eqb (method req) "OPTIONS");
      [contradiction Hchanged; reflexivity |].
    destruct (String.eqb_spec (method req) "POST") as [Hm | Hm];
      [| contradiction Hchanged; reflexivity].
    destruct (String.eqb_spec (url req) "/log") as [Hu | Hu];
      [| contradiction Hchanged; reflexivity].
    cbn [andb] in *.
    unfold treated_as_duplicate.
    destruct (on_end_served nts ctx (body req) w)
      as [| v Hf | v q u ts Hf Hdup | v q u ts Hf Hdup Hline
          | v q u ts ln done v' Hf Hdup Hline Hc
          | v q u ts ln done e Hf Hdup Hline Hc];
      try (contradiction Hchanged; reflexivity).
    rewrite Hf, Hdup, (status_accepted _ _ _ _ _ _ _ Hc). auto.
  - intros Hm. unfold handle, createHttpHandler. rewrite Hm. reflexivity.
  - intros Hopt Hother. unfold handle, createHttpHandler.
    destruct (String.eqb_spec (method req) "OPTIONS"); [contradiction |].
    destruct (String.eqb_spec (method req) "POST");
      destruct (String.eqb_spec (url req) "/log"); try reflexivity.
    destruct Hother; contradiction.
Qed.

End Requests.

(** ** The log across requests *)

Section Log.
Import Js Settings LoggingServer Props Paths LogProps.
#[local] Open Scope nat_scope.

Variable nts : number -> string.

Lemma append_assoc a b c : (a +:+ b) +:+ c = a +:+ b +:+ c.
Proof.
  induction a as [| x a IH]; [reflexivity |].
  change (String x ((a +:+ b) +:+ c) = String x (a +:+ b +:+ c)).
  rewrite IH. reflexivity.
Qed.

Lemma append_empty_r a : a +:+ "" = a.
Proof.
  induction a as [| x a IH]; [reflexivity |].
  change (String x (a +:+ "") = String x a).
  rewrite IH. reflexivity.
Qed.

Lemma text_app l k : text (l ++ k) = text l +:+ text k.
Proof.
  induction l as [| a l IH]; [reflexivity |].
  cbn [app text fold_right] in *. fold (text (l ++ k)). fold (text l).
  rewrite IH, append_assoc. reflexivity.
Qed.

Lemma settles_commit ctx w : settles ctx -> commit_rejects ctx w = false.
Proof.
  intros Hs. unfold commit_rejects.
  destruct (vault w !! getLogFileName ctx) as [[|] |]; rewrite ?Hs;
    try reflexivity.
  destruct (getPrependMode ctx); rewrite ?Hs; reflexivity.
Qed.

(** The vault after a request: as before, or with the line committed. *)
Lemma handle_vault ctx req w :
  vault (after (handle nts ctx req w)) = vault w
  \/ exists ln done,
       Committed ctx w ln done (inr (vault (after (handle nts ctx req w)))).
Proof.
  destruct (handle_cases nts ctx req w) as [-> | [-> | Hs]];
    [left; reflexivity | left; reflexivity |].
  destruct Hs as [| v Hf | v q u ts Hf Hdup | v q u ts Hf Hdup Hline
                  | v q u ts ln done v' Hf Hdup Hline Hc
                  | v q u ts ln done e Hf Hdup Hline Hc];
    try (left; reflexivity).
  right. exists ln, done. exact Hc.
Qed.

(** What a request leaves at a path, whatever the request. *)
Lemma handle_path ctx req w p :
  (forall old, vault w !! p = Some (TFile old) ->
     exists pre post,
       vault (after (handle nts ctx req w)) !! p
       = Some (TFile (pre +:+ old +:+ post)))
  /\ (vault w !! p = Some TFolder ->
      vault (after (handle nts ctx req w)) !! p = Some TFolder)
  /\ (getLogFileName ctx <> p ->
      vault (after (handle nts ctx req w)) !! p = vault w !! p).
Proof.
  assert (Hsame : forall old, vault w !! p = Some (TFile old) ->
            exists pre post, vault w !! p = Some (TFile (pre +:+ old +:+ post))).
  { intros old Hold. exists "", "". rewrite append_empty_r. exact Hold. }
  destruct (handle_vault ctx req w) as [-> | (ln & done & Hc)];
    [auto |].
  apply Committed_vault in Hc.
  destruct (decide (getLogFileName ctx = p)) as [<- | Hp].
  - destruct (vault w !! getLogFileName ctx) as [[old |] |] eqn:Hfile;
      rewrite Hc.
    + rewrite lookup_insert_eq. repeat split; try congruence.
      intros old' [= <-].
      destruct (getPrependMode ctx).
      * exists ln, "". rewrite append_empty_r. reflexivity.
      * exists "", ln. reflexivity.
    + rewrite Hfile. repeat split; congruence.
    + repeat split; congruence.
  - assert (Hout : vault (after (handle nts ctx req w)) !! p = vault w !! p).
    { destruct (vault w !! getLogFileName ctx) as [[old |] |]; rewrite Hc;
        try reflexivity; apply lookup_insert_ne; exact Hp. }
    rewrite Hout. auto.
Qed.

(** X11. Nothing is ever deleted or shortened. Over any requests, served under
    any contexts: a note keeps its text, with lines before or after it, a
    folder stays a folder, and a path that is the log file name of none of
    the contexts is as before. *)
Theorem log_only_grows :
  forall (reqs : list (LogContext * IncomingMessage)) (w : World) (p : string),
    (forall old, vault w !! p = Some (TFile old) ->
       exists pre post,
         vault (run nts reqs w) !! p = Some (TFile (pre +:+ old +:+ post)))
    /\ (vault w !! p = Some TFolder ->
        vault (run nts reqs w) !! p = Some TFolder)
    /\ (Forall (fun x => getLogFileName x.1 <> p) reqs ->
        vault (run nts reqs w) !! p = vault w !! p).
Proof.
  intros reqs. induction reqs as [| x reqs IH]; intros w p.
  - cbn. repeat split; auto.
    intros old Hold. exists "", "". rewrite append_empty_r. exact Hold.
  - change (run nts (x :: reqs) w)
      with (run nts reqs (after (handle nts x.1 x.2 w))).
    destruct (handle_path x.1 x.2 w p) as (Hnote & Hfolder & Hother).
    destruct (IH (after (handle nts x.1 x.2 w)) p) as (IHnote & IHfolder & IHother).
    split; [| split].
    + intros old Hold.
      destruct (Hnote old Hold) as (pre1 & post1 & H1).
      destruct (IHnote _ H1) as (pre & post & H2).
      exists (pre +:+ pre1), (post1 +:+ post).
      rewrite H2, !append_assoc. reflexivity.
    + auto.
    + intros Hall. apply Forall_cons in Hall as [Hx Hall].
      rewrite (IHother Hall). auto.
Qed.

(** *** Events *)

Lemma event_is_event q u ts : is_event (event q u ts) q u ts.
Proof. exists [("query", JString q); ("url", JString u); ("timestamp", JNumber ts)].
  repeat split.
Qed.

(** An event with a query that is not in the buffer, when the commit does
    not reject. *)
Lemma handle_event ctx v q u ts w :
  is_event v q u ts ->
  includes (recentQueries w) (JString q) = false ->
  commit_rejects ctx w = false ->
  exists done v',
    Committed ctx w (event_line nts ts q u) done (inr v')
    /\ handle nts ctx (post_log (Json v)) w = accepted done (JString q) v' w.
Proof.
  intros Hev Hnew Hsettle.
  destruct (is_event_fields nts _ _ _ _ Hev) as [Hfields Hline].
  destruct (handle_new_query nts ctx v _ _ _ w Hfields Hnew)
    as [[Hnone _] | (ln & done & res & Hln & Hc & Hr)];
    [congruence |].
  rewrite Hline in Hln. injection Hln as <-.
  pose proof (Committed_rejects _ _ _ _ _ Hc) as Hrej.
  rewrite Hsettle in Hrej.
  destruct res as [e | v']; [discriminate |].
  exists done, v'. auto.
Qed.

(** The note after a commit, with nothing at the path read as the empty
    text. *)
Lemma Committed_text ctx w ln done v' :
  Committed ctx w ln done (inr v') ->
  vault w !! getLogFileName ctx <> Some TFolder ->
  v' !! getLogFileName ctx
  = Some (TFile (if getPrependMode ctx
                 then ln +:+ text_at (getLogFileName ctx) w
                 else text_at (getLogFileName ctx) w +:+ ln)).
Proof.
  intros Hc Hfile. apply Committed_vault in Hc. unfold text_at.
  destruct (vault w !! getLogFileName ctx) as [[old |] |];
    [| contradiction Hfile; reflexivity |];
    rewrite Hc, lookup_insert_eq; [reflexivity |].
  destruct (getPrependMode ctx); [rewrite append_empty_r |]; reflexivity.
Qed.

Lemma not_in_buffer buf q :
  JString q ∉ buf -> includes buf (JString q) = false.
Proof.
  intros Hnot. apply not_true_iff_false. intros Hin.
  apply includes_string in Hin. contradiction.
Qed.

(** X12. An event that was answered 400 because its commit rejected is not
    remembered: sent again when the commit settles, it is written. *)
Theorem rejected_commit_can_be_retried :
  forall (ctx ctx' : LogContext) (v : JsValue) (q u : string) (ts : number)
         (w : World),
    is_event v q u ts ->
    JString q ∉ recentQueries w ->
    commit_rejects ctx w = true ->
    commit_rejects ctx' w = false ->
    vault w !! getLogFileName ctx' <> Some TFolder ->
    let r1 := handle nts ctx (post_log (Json v)) w in
    let r2 := handle nts ctx' (post_log (Json v)) (after r1) in
    status r1 = Some 400
    /\ after r1 = w
    /\ treated_as_duplicate (after r1) (post_log (Json v)) = false
    /\ status r2 = Some 200
    /\ writes (effects r2) = 1
    /\ vault (after r2) !! getLogFileName ctx'
       = Some (TFile (if getPrependMode ctx'
                      then event_line nts ts q u
                           +:+ text_at (getLogFileName ctx') w
                      else text_at (getLogFileName ctx') w
                           +:+ event_line nts ts q u))
    /\ JString q ∈ recentQueries (after r2).
Proof.
  intros ctx ctx' v q u ts w Hev Hnot Hrej Hsettle Hfile r1 r2.
  subst r1 r2.
  pose proof (not_in_buffer _ _ Hnot) as Hnew.
  destruct (is_event_fields nts _ _ _ _ Hev) as [Hfields Hline].
  assert (H1 : status (handle nts ctx (post_log (Json v)) w) = Some 400
               /\ after (handle nts ctx (post_log (Json v)) w) = w).
  { destruct (handle_new_query nts ctx v _ _ _ w Hfields Hnew)
      as [[Hnone _] | (ln & done & res & Hln & Hc & Hr)];
      [congruence |].
    pose proof (Committed_rejects _ _ _ _ _ Hc) as Hres.
    rewrite Hrej in Hres.
    destruct res as [e | v']; [| discriminate].
    rewrite Hr. split; [exact (status_failed _ _ _ _ _ _ Hc) | reflexivity]. }
  destruct H1 as [Hstatus Hafter]. rewrite Hafter.
  destruct (handle_event ctx' v q u ts w Hev Hnew Hsettle)
    as (done & v' & Hc & ->).
  split; [exact Hstatus |]. split; [reflexivity |]. split.
  { unfold treated_as_duplicate. cbn [body post_log].
    rewrite Hfields. exact Hnew. }
  split; [exact (status_accepted _ _ _ _ _ _ _ Hc) |]. split.
  { rewrite (writes_accepted _ _ _ _ _ _ Hc).
    destruct (vault w !! getLogFileName ctx') as [[|] |];
      [reflexivity | contradiction Hfile; reflexivity | reflexivity]. }
  split.
  { cbn [after accepted vault]. exact (Committed_text _ _ _ _ _ Hc Hfile). }
  cbn [after accepted recentQueries]. apply recorded_last.
Qed.

(** *** The buffer in closed form *)

Lemma last_n_short {A} n (l : list A) : length l <= n -> last_n n l = l.
Proof.
  intros Hlen. unfold last_n.
  replace (length l - n) with 0 by lia. reflexivity.
Qed.

Lemma last_n_length {A} n (l : list A) : length (last_n n l) <= n.
Proof. unfold last_n. rewrite length_drop. lia. Qed.

Lemma last_n_app {A} n (l k : list A) :
  last_n n (last_n n l ++ k) = last_n n (l ++ k).
Proof.
  destruct (Nat.le_gt_cases (length l) n) as [Hshort | Hlong].
  - rewrite (last_n_short n l Hshort). reflexivity.
  - unfold last_n. rewrite !length_app, length_drop.
    replace (length l - (length l - n) + length k - n) with (length k) by lia.
    replace (length l + length k - n) with (length l - n + length k) by lia.
    replace (l ++ k)
      with (take (length l - n) l ++ (drop (length l - n) l ++ k))
      by (rewrite app_assoc, take_drop; reflexivity).
    rewrite drop_app_add'; [| rewrite length_take; lia].
    reflexivity.
Qed.

Lemma recorded_last_n q buf :
  length buf <= MAX_RECENT -> recorded q buf = last_n MAX_RECENT (buf ++ [q]).
Proof.
  intros Hlen. unfold recorded, last_n.
  rewrite length_app. cbn [length].
  destruct (Nat.ltb_spec MAX_RECENT (length buf + 1)) as [Hover | Hfits].
  - replace (length buf + 1 - MAX_RECENT) with 1 by lia.
    destruct buf; reflexivity.
  - replace (length buf + 1 - MAX_RECENT) with 0 by lia. reflexivity.
Qed.

Lemma elem_of_last_n {A} n (l : list A) x : x ∈ last_n n l -> x ∈ l.
Proof.
  unfold last_n. intros Hin.
  rewrite <- (take_drop (length l - n) l). apply elem_of_app. auto.
Qed.

Lemma run_buffer reqs :
  forall (qs : list string) (w : World),
    Forall2 (fun x q => sends x.2 q /\ settles x.1) reqs qs ->
    NoDup qs ->
    (forall s, JString s ∈ recentQueries w -> s ∉ qs) ->
    length (recentQueries w) <= MAX_RECENT ->
    recentQueries (run nts reqs w)
    = last_n MAX_RECENT (recentQueries w ++ map JString qs).
Proof.
  induction reqs as [| x reqs IH]; intros qs w Hsends Hnodup Hold Hlen.
  - inversion Hsends; subst. cbn. rewrite app_nil_r, last_n_short; auto.
  - inversion Hsends as [| x0 q reqs' qs' [Hsend Hsettle] Hrest]; subst.
    apply NoDup_cons in Hnodup as [Hq Hnodup].
    destruct Hsend as (v & u & ts & Hreq & Hev).
    assert (Hnew : includes (recentQueries w) (JString q) = false).
    { apply not_in_buffer. intros Hin. apply (Hold q Hin).
      apply elem_of_cons. left. reflexivity. }
    destruct (handle_event x.1 v q u ts w Hev Hnew
                (settles_commit _ _ Hsettle)) as (done & v' & Hc & Hr).
    change (run nts (x :: reqs) w)
      with (run nts reqs (after (handle nts x.1 x.2 w))).
    rewrite Hreq, Hr.
    rewrite (IH qs'); cbn [after accepted recentQueries]; auto.
    + rewrite (recorded_last_n _ _ Hlen), last_n_app.
      cbn [map]. rewrite <- app_assoc. reflexivity.
    + intros s Hin Hs.
      apply recorded_subset in Hin as [Hin | Heq].
      * apply (Hold s Hin). apply elem_of_cons. right. exact Hs.
      * injection Heq as ->. contradiction.
    + apply recorded_length. exact Hlen.
Qed.

Lemma last_n_map {A B} (f : A -> B) n l :
  last_n n (map f l) = map f (last_n n l).
Proof. unfold last_n. rewrite length_map, <- skipn_map. reflexivity. Qed.

(** X13. From an empty buffer, after events with pairwise distinct queries, all
    committed, the buffer holds the last three of them, the oldest first.
    So the next event is dropped as a duplicate exactly when its query is one
    of the last three: a query comes back into the log once three others
    have followed it. *)
Theorem buffer_holds_the_last_three :
  forall (reqs : list (LogContext * IncomingMessage)) (qs : list string)
         (w : World),
    Forall2 (fun x q => sends x.2 q /\ settles x.1) reqs qs ->
    NoDup qs ->
    recentQueries w = [] ->
    recentQueries (run nts reqs w) = map JString (last_n 3 qs)
    /\ (forall v q u ts,
           is_event v q u ts ->
           treated_as_duplicate (run nts reqs w) (post_log (Json v)) = true
           <-> q ∈ last_n 3 qs).
Proof.
  intros reqs qs w Hsends Hnodup Hempty.
  assert (Hbuf : recentQueries (run nts reqs w) = map JString (last_n 3 qs)).
  { rewrite (run_buffer reqs qs w Hsends Hnodup); rewrite Hempty.
    - apply last_n_map.
    - intros s Hin. apply elem_of_nil in Hin. contradiction.
    - cbn. unfold MAX_RECENT. lia. }
  split; [exact Hbuf |].
  intros v q u ts Hev.
  destruct (is_event_fields nts _ _ _ _ Hev) as [Hfields _].
  unfold treated_as_duplicate. cbn [body post_log].
  rewrite Hfields, Hbuf, includes_string. split.
  - intros Hin. apply list_elem_of_fmap in Hin as (s & [= ->] & Hin). exact Hin.
  - intros Hin. apply list_elem_of_fmap. exists q. auto.
Qed.

End Log.

(** ** The order of the lines *)

Section Order.
Import Js Settings LoggingServer Props Paths LogProps.
#[local] Open Scope nat_scope.

Variable nts : number -> string.

(** A value with a line and a query that is not in the buffer, when the
    commit does not reject. *)
Lemma handle_line ctx v q u ts ln w :
  destructure v = Some (q, u, ts) ->
  includes (recentQueries w) q = false ->
  line_of nts ts q u = Some ln ->
  commit_rejects ctx w = false ->
  exists done v',
    Committed ctx w ln done (inr v')
    /\ handle nts ctx (post_log (Json v)) w = accepted done q v' w.
Proof.
  intros Hfields Hnew Hline Hsettle.
  destruct (handle_new_query nts ctx v _ _ _ w Hfields Hnew)
    as [[Hnone _] | (ln' & done & res & Hln & Hc & Hr)];
    [congruence |].
  rewrite Hline in Hln. injection Hln as <-.
  pose proof (Committed_rejects _ _ _ _ _ Hc) as Hrej.
  rewrite Hsettle in Hrej.
  destruct res as [e | v']; [discriminate |].
  exists done, v'. auto.
Qed.

Lemma order_step (prepend : bool) ln old ls :
  (if prepend then text (rev ls) +:+ ln +:+ old
   else (old +:+ ln) +:+ text ls)
  = (if prepend then text (rev (ln :: ls)) +:+ old
     else old +:+ text (ln :: ls)).
Proof.
  destruct prepend.
  - cbn [rev]. rewrite text_app. cbn [text fold_right].
    rewrite append_empty_r, append_assoc. reflexivity.
  - rewrite append_assoc. reflexivity.
Qed.

Lemma run_posts_note ctx evs :
  forall (w : World) (old : string),
    settles ctx ->
    NoDup (queries evs) ->
    Forall (fun q => JString q ∉ recentQueries w) (queries evs) ->
    vault w !! getLogFileName ctx = Some (TFile old) ->
    vault (run nts (posts ctx evs) w) !! getLogFileName ctx
    = Some (TFile (if getPrependMode ctx
                   then text (rev (lines nts evs)) +:+ old
                   else old +:+ text (lines nts evs))).
Proof.
  induction evs as [| [[q u] ts] evs IH]; intros w old Hsettle Hnodup Hnew Hold.
  - cbn. rewrite append_empty_r, Hold. destruct (getPrependMode ctx); reflexivity.
  - cbn [queries map fst snd] in Hnodup, Hnew. fold (queries evs) in Hnodup, Hnew.
    apply NoDup_cons in Hnodup as [Hq Hnodup].
    apply Forall_cons in Hnew as [Hnot Hnew].
    destruct (handle_event nts ctx _ q u ts w (event_is_event q u ts)
                (not_in_buffer _ _ Hnot) (settles_commit _ _ Hsettle))
      as (done & v' & Hc & Hr).
    change (run nts (posts ctx ((q, u, ts) :: evs)) w)
      with (run nts (posts ctx evs)
              (after (handle nts ctx (post_log (Json (event q u ts))) w))).
    rewrite Hr.
    assert (Hfile : vault w !! getLogFileName ctx <> Some TFolder)
      by congruence.
    pose proof (Committed_text _ _ _ _ _ Hc Hfile) as Hnote.
    unfold text_at in Hnote. rewrite Hold in Hnote.
    set (w1 := after (accepted done (JString q) v' w)).
    assert (Hnew1 : Forall (fun s => JString s ∉ recentQueries w1) (queries evs)).
    { apply Forall_forall. intros s Hs Hin.
      apply recorded_subset in Hin as [Hin | Heq].
      - rewrite Forall_forall in Hnew. exact (Hnew s Hs Hin).
      - injection Heq as ->. contradiction. }
    assert (Hold1 : vault w1 !! getLogFileName ctx
                    = Some (TFile (if getPrependMode ctx
                                   then event_line nts ts q u +:+ old
                                   else old +:+ event_line nts ts q u)))
      by exact Hnote.
    rewrite (IH w1 _ Hsettle Hnodup Hnew1 Hold1).
    f_equal. f_equal.
    change (lines nts ((q, u, ts) :: evs))
      with (event_line nts ts q u :: lines nts evs).
    rewrite <- order_step.
    destruct (getPrependMode ctx); reflexivity.
Qed.

(** X14. Events with pairwise distinct queries, none of them in the buffer,
    served one after the other while the vault operations settle: the note
    holds what it held and the lines of all of them, after it in the order
    of arrival in append mode, before it in the reverse order in prepend
    mode. When nothing was at the path the note holds just the lines. *)
Theorem lines_are_kept_in_order :
  forall (ctx : LogContext) (evs : list (string * string * number))
         (w : World),
    settles ctx ->
    NoDup (queries evs) ->
    Forall (fun q => JString q ∉ recentQueries w) (queries evs) ->
    vault w !! getLogFileName ctx <> Some TFolder ->
    evs <> [] ->
    vault (run nts (posts ctx evs) w) !! getLogFileName ctx
    = Some (TFile (if getPrependMode ctx
                   then text (rev (lines nts evs))
                        +:+ text_at (getLogFileName ctx) w
                   else text_at (getLogFileName ctx) w
                        +:+ text (lines nts evs))).
Proof.
  intros ctx evs w Hsettle Hnodup Hnew Hfile Hsome.
  destruct evs as [| [[q u] ts] evs]; [contradiction Hsome; reflexivity |].
  cbn [queries map fst snd] in Hnodup, Hnew. fold (queries evs) in Hnodup, Hnew.
  apply NoDup_cons in Hnodup as [Hq Hnodup].
  apply Forall_cons in Hnew as [Hnot Hnew].
  destruct (handle_event nts ctx _ q u ts w (event_is_event q u ts)
              (not_in_buffer _ _ Hnot) (settles_commit _ _ Hsettle))
    as (done & v' & Hc & Hr).
  change (run nts (posts ctx ((q, u, ts) :: evs)) w)
    with (run nts (posts ctx evs)
            (after (handle nts ctx (post_log (Json (event q u ts))) w))).
  rewrite Hr.
  pose proof (Committed_text _ _ _ _ _ Hc Hfile) as Hnote.
  set (w1 := after (accepted done (JString q) v' w)).
  assert (Hnew1 : Forall (fun s => JString s ∉ recentQueries w1) (queries evs)).
  { apply Forall_forall. intros s Hs Hin.
    apply recorded_subset in Hin as [Hin | Heq].
    - rewrite Forall_forall in Hnew. exact (Hnew s Hs Hin).
    - injection Heq as ->. contradiction. }
  assert (Hold1 : vault w1 !! getLogFileName ctx
                  = Some (TFile (if getPrependMode ctx
                                 then event_line nts ts q u
                                      +:+ text_at (getLogFileName ctx) w
                                 else text_at (getLogFileName ctx) w
                                      +:+ event_line nts ts q u)))
    by exact Hnote.
  rewrite (run_posts_note ctx evs w1 _ Hsettle Hnodup Hnew1 Hold1).
  f_equal. f_equal.
  change (lines nts ((q, u, ts) :: evs))
    with (event_line nts ts q u :: lines nts evs).
  rewrite <- order_step.
  destruct (getPrependMode ctx); reflexivity.
Qed.

(** *** Queries that are not strings *)

Lemma includes_by_reference buf q :
  by_reference q = true -> includes buf q = false.
Proof.
  intros Hq. unfold includes.
  induction buf as [| x buf IH]; [reflexivity |].
  cbn [existsb]. rewrite IH, orb_false_r.
  destruct q; try discriminate; destruct x; reflexivity.
Qed.

(** X15. A query that is an array or an object is never a duplicate: the buffer
    compares by identity, and every request parses a value of its own. The
    same body sent twice in a row is written twice. *)
Theorem object_query_is_never_a_duplicate :
  forall (ctx : LogContext) (v q u ts : JsValue) (ln : string) (w : World),
    destructure v = Some (q, u, ts) ->
    by_reference q = true ->
    line_of nts ts q u = Some ln ->
    settles ctx ->
    vault w !! getLogFileName ctx <> Some TFolder ->
    let r1 := handle nts ctx (post_log (Json v)) w in
    let r2 := handle nts ctx (post_log (Json v)) (after r1) in
    (forall w', treated_as_duplicate w' (post_log (Json v)) = false)
    /\ status r1 = Some 200 /\ writes (effects r1) = 1
    /\ q ∈ recentQueries (after r1)
    /\ status r2 = Some 200 /\ writes (effects r2) = 1
    /\ vault (after r2) !! getLogFileName ctx
       = Some (TFile (if getPrependMode ctx
                      then ln +:+ ln +:+ text_at (getLogFileName ctx) w
                      else (text_at (getLogFileName ctx) w +:+ ln) +:+ ln)).
Proof.
  intros ctx v q u ts ln w Hfields Href Hline Hsettle Hfile r1 r2.
  subst r1 r2.
  destruct (handle_line ctx v q u ts ln w Hfields
              (includes_by_reference _ _ Href) Hline
              (settles_commit _ _ Hsettle)) as (done & v' & Hc & ->).
  pose proof (Committed_text _ _ _ _ _ Hc Hfile) as Hnote.
  set (w1 := after (accepted done q v' w)).
  assert (Hnote1 : vault w1 !! getLogFileName ctx
                   = Some (TFile (if getPrependMode ctx
                                  then ln +:+ text_at (getLogFileName ctx) w
                                  else text_at (getLogFileName ctx) w +:+ ln)))
    by exact Hnote.
  assert (Hfile1 : vault w1 !! getLogFileName ctx <> Some TFolder)
    by (rewrite Hnote1; discriminate).
  destruct (handle_line ctx v q u ts ln w1 Hfields
              (includes_by_reference _ _ Href) Hline
              (settles_commit _ _ Hsettle)) as (done1 & v1 & Hc1 & ->).
  pose proof (Committed_text _ _ _ _ _ Hc1 Hfile1) as Hnote2.
  unfold text_at at 1 2 in Hnote2. rewrite Hnote1 in Hnote2.
  split.
  { intros w'. unfold treated_as_duplicate. cbn [body post_log].
    rewrite Hfields. apply includes_by_reference. exact Href. }
  split; [exact (status_accepted _ _ _ _ _ _ _ Hc) |]. split.
  { rewrite (writes_accepted _ _ _ _ _ _ Hc).
    destruct (vault w !! getLogFileName ctx) as [[|] |];
      [reflexivity | contradiction Hfile; reflexivity | reflexivity]. }
  split; [apply recorded_last |].
  split; [exact (status_accepted _ _ _ _ _ _ _ Hc1) |]. split.
  { rewrite (writes_accepted _ _ _ _ _ _ Hc1).
    destruct (vault w1 !! getLogFileName ctx) as [[|] |];
      [reflexivity | contradiction Hfile1; reflexivity | reflexivity]. }
  cbn [after accepted vault]. rewrite Hnote2.
  destruct (getPrependMode ctx); reflexivity.
Qed.

End Order.

(** ** The log file name and the handler *)

Section NameAndHandler.
Import Js Settings LoggingServer Props Paths Str FileNames Main NameProps
  LogProps.
#[local] Open Scope nat_scope.

Variable t : string -> list (string * JsValue) -> string.
Variable nts : number -> string.

Lemma validated_name_is_no_folder p :
  validateLogFileName t p (logFileName p) = None ->
  files p !! logFileName p <> Some TFolder.
Proof.
  intros Hvalid. apply validateLogFileName_None in Hvalid
    as (_ & _ & _ & Hfile).
  destruct (getLogFileNameFrom_normal (logFileUserPref p)) as (Htrim & _).
  fold (logFileName p) in Htrim. rewrite Htrim in Hfile. exact Hfile.
Qed.

Lemma Committed_at_a_note ctx w ln done res data :
  vault w !! getLogFileName ctx = Some (TFile data) ->
  Committed ctx w ln done res ->
  Forall (fun e => creation e = false /\ warning e = false) done.
Proof.
  intros Hnote H; destruct H; try congruence; repeat constructor.
Qed.

Lemma Committed_without_warning ctx w ln done res :
  vault w !! getLogFileName ctx <> Some TFolder ->
  Committed ctx w ln done res ->
  Forall (fun e => warning e = false) done.
Proof.
  intros Hfile H; destruct H; try contradiction; repeat constructor.
Qed.

(** X16. The name that [validateLogFileName] accepts is one the handler writes
    to: with the vault the validation saw, an event whose query is not in
    the buffer is written, with no warning, when the vault operation
    settles. *)
Theorem validated_name_is_written :
  forall (p : Plugin) (ctx : LogContext) (v : JsValue) (q u : string)
         (ts : number) (w : World),
    validateLogFileName t p (logFileName p) = None ->
    vault w = files p ->
    getLogFileName ctx = logFileName p ->
    settles ctx ->
    is_event v q u ts ->
    JString q ∉ recentQueries w ->
    let r := handle nts ctx (post_log (Json v)) w in
    status r = Some 200
    /\ writes (effects r) = 1
    /\ Forall (fun e => warning e = false) (effects r)
    /\ vault (after r) !! logFileName p
       = Some (TFile (if getPrependMode ctx
                      then event_line nts ts q u
                           +:+ text_at (logFileName p) w
                      else text_at (logFileName p) w
                           +:+ event_line nts ts q u)).
Proof.
  intros p ctx v q u ts w Hvalid Hvault Hname Hsettle Hev Hnot r. subst r.
  pose proof (validated_name_is_no_folder p Hvalid) as Hfile.
  rewrite <- Hvault, <- Hname in Hfile. rewrite <- Hname.
  destruct (handle_event nts ctx v q u ts w Hev (not_in_buffer _ _ Hnot)
              (settles_commit _ _ Hsettle)) as (done & v' & Hc & ->).
  split; [exact (status_accepted _ _ _ _ _ _ _ Hc) |]. split.
  { rewrite (writes_accepted _ _ _ _ _ _ Hc).
    destruct (vault w !! getLogFileName ctx) as [[|] |];
      [reflexivity | contradiction Hfile; reflexivity | reflexivity]. }
  split.
  { unfold accepted, recording. cbn [effects].
    apply Forall_app. split;
      [exact (Committed_without_warning _ _ _ _ _ Hfile Hc) |].
    destruct (MAX_RECENT <? _); repeat constructor. }
  cbn [after accepted vault]. exact (Committed_text _ _ _ _ _ Hc Hfile).
Qed.

(** X17. After a load with a name that is accepted and a [create] that settles,
    a note is at the log file name, empty when it was created. With that
    vault the handler never calls [create] and never warns of a folder,
    whatever the request. *)
Theorem after_load_the_note_exists :
  forall (out : SettingTab.Outside) (p : Plugin) (st : SettingTab.State),
    validateLogFileName t p (logFileName p) = None ->
    let p' := fst (onLayoutReady t out false p st) in
    logFileName p' = logFileName p
    /\ (exists data,
           files p' !! logFileName p' = Some (TFile data)
           /\ (files p !! logFileName p = None -> data = ""))
    /\ (forall ctx req w,
           vault w = files p' ->
           getLogFileName ctx = logFileName p' ->
           Forall (fun e => creation e = false /\ warning e = false)
                  (effects (handle nts ctx req w))).
Proof.
  intros out p st Hvalid p'.
  pose proof (validated_name_is_no_folder p Hvalid) as Hfile.
  assert (Hp' : logFileUserPref p' = logFileUserPref p
                /\ exists data,
                     files p' !! logFileName p = Some (TFile data)
                     /\ (files p !! logFileName p = None -> data = "")).
  { subst p'. unfold onLayoutReady. rewrite Hvalid. cbn [SettingTab.truthy].
    destruct (initLogFile_cases t false (logFileName p) p)
      as [[Hsome Hr] | [(_ & Habs & _) | (Hnone & _ & Hs & Hf & Hpref & _)]];
      [| discriminate |].
    - rewrite Hr.
      destruct (SettingTab.truthy _); cbn [fst Notice logFileUserPref files];
        (split; [reflexivity |]);
        (destruct (files p !! logFileName p) as [[data |] |];
         [exists data; split; [reflexivity | discriminate]
         | contradiction Hfile; reflexivity
         | contradiction Hsome; reflexivity]).
    - destruct (initLogFile t false (logFileName p) p) as [p2 thrown].
      cbn [fst snd] in *. subst thrown.
      destruct (SettingTab.truthy _); cbn [fst Notice logFileUserPref files];
        (split; [exact Hpref |]);
        exists ""; rewrite Hf, lookup_insert_eq; auto. }
  destruct Hp' as (Hpref & data & Hnote & Hempty).
  assert (Hname : logFileName p' = logFileName p)
    by (unfold logFileName; rewrite Hpref; reflexivity).
  rewrite Hname.
  split; [reflexivity |]. split; [exists data; auto |].
  intros ctx req w Hvault Hctx.
  rewrite <- Hvault, <- Hctx in Hnote.
  destruct (handle_cases nts ctx req w) as [-> | [-> | Hs]];
    [repeat constructor | repeat constructor |].
  destruct Hs as [| v Hf | v q u ts Hf Hdup | v q u ts Hf Hdup Hline
                  | v q u ts ln done v' Hf Hdup Hline Hc
                  | v q u ts ln done e Hf Hdup Hline Hc];
    try (repeat constructor).
  - unfold accepted, recording. cbn [effects].
    apply Forall_app. split;
      [exact (Committed_at_a_note _ _ _ _ _ _ Hnote Hc) |].
    destruct (MAX_RECENT <? _); repeat constructor.
  - unfold failed. cbn [effects].
    apply Forall_app. split;
      [exact (Committed_at_a_note _ _ _ _ _ _ Hnote Hc) | repeat constructor].
Qed.

End NameAndHandler.

(** ** The listener over the life of the plugin *)

Ltac tab_step :=
  cbn -[Js.number_eqb String.eqb String.append];
  rewrite ?Nat.eqb_refl;
  cbn -[Js.number_eqb String.eqb String.append].

Ltac tab_cases :=
  repeat
    (tab_step;
     match goal with
     | |- context [SettingTab.bind_error ?o ?p] =>
         let H := fresh "Hbind" in
         destruct (SettingTab.bind_error o p) eqn:H
     | |- context [SettingTab.saveData_error ?o] =>
         let H := fresh "Hsave" in
         destruct (SettingTab.saveData_error o) eqn:H
     end);
  tab_step.

Section Listener.
Import Js Settings SettingTab Props LogProps.
#[local] Open Scope nat_scope.

Variable t : string -> list (string * JsValue) -> string.
Variable nts : number -> string.

(** Every listener of the process is the server of the plugin, and there is
    at most one. *)
Lemma onChange_owns_the_listener out parsed st :
  listening st = []
  \/ (exists s p, server st = Some s /\ listening st = [(s, p)]) ->
  listening (onChange t nts out parsed st) = []
  \/ (exists s p, server (onChange t nts out parsed st) = Some s
                  /\ listening (onChange t nts out parsed st) = [(s, p)]).
Proof.
  intros Hinv.
  destruct st as [port srv sockets count errorEl value].
  cbn [server listening] in Hinv.
  unfold onChange.
  destruct (truthy _); [exact Hinv |].
  unfold createServer, listen, close, rollback.
  destruct Hinv as [-> | (s & p & -> & ->)]; [destruct srv as [s |] |];
    tab_cases; unfold listen, close; tab_cases;
    first [left; reflexivity | right; eexists _, _; split; reflexivity].
Qed.

Lemma onload_owns_the_listener out st :
  listening st = [] ->
  listening (onload out st) = []
  \/ (exists s p, server (onload out st) = Some s
                  /\ listening (onload out st) = [(s, p)]).
Proof.
  intros Hnone. unfold onload, listen, createServer. cbn.
  rewrite Hnone.
  destruct (bind_error out (settings_port st)); cbn; [left; reflexivity |].
  right. eexists _, _. split; reflexivity.
Qed.

Lemma edits_own_the_listener es :
  forall st,
    listening st = []
    \/ (exists s p, server st = Some s /\ listening st = [(s, p)]) ->
    listening (edits t nts es st) = []
    \/ (exists s p, server (edits t nts es st) = Some s
                    /\ listening (edits t nts es st) = [(s, p)]).
Proof.
  induction es as [| e es IH]; intros st Hinv; [exact Hinv |].
  apply (IH (onChange t nts e.1 e.2 st)).
  apply onChange_owns_the_listener. exact Hinv.
Qed.

(** X18. The plugin never leaves a listener behind. After a load and any port
    edits, whether they succeed, fail to bind or fail to save, at most one
    server of the process listens, and it is the server of the plugin; so
    [onunload] leaves no server listening. *)
Theorem unload_leaves_no_listener :
  forall (out : Outside) (es : list (Outside * number)) (st : State),
    listening st = [] ->
    let st' := edits t nts es (onload out st) in
    length (listening st') <= 1
    /\ (forall s p, (s, p) ∈ listening st' -> server st' = Some s)
    /\ listening (onunload st') = []
    /\ server (onunload st') = None.
Proof.
  intros out es st Hnone st'.
  destruct (edits_own_the_listener es _ (onload_owns_the_listener out st Hnone))
    as [Hl | (s & p & Hs & Hl)]; fold st' in Hl |- *.
  - clearbody st'. rewrite Hl. split; [cbn; lia |]. split.
    + intros s p Hin. apply elem_of_nil in Hin. contradiction.
    + unfold onunload.
      destruct (server st') as [s |] eqn:Hsrv.
      * unfold close. cbn. rewrite Hl. cbn. auto.
      * rewrite Hl. auto.
  - fold st' in Hs. clearbody st'. rewrite Hl. split; [cbn; lia |]. split.
    + intros s' p' Hin. apply list_elem_of_singleton in Hin.
      injection Hin as -> ->. exact Hs.
    + destruct (onunload_closes st' s p Hs Hl) as [Hserver Hlisten]. auto.
Qed.

(** X19. As long as the settings can be saved and the port in use stays free
    for the process, any port edits leave the plugin bound: the service
    answers on the port of the settings and on no other. *)
Theorem edits_keep_the_plugin_bound :
  forall (out : Outside) (ports : list number) (st : State),
    saveData_error out = None ->
    bound out st ->
    let st' := edits t nts (map (pair out) ports) st in
    bound out st'
    /\ (forall p, reachable p st' = number_eqb (settings_port st') p).
Proof.
  intros out ports st Hsave Hbound st'. subst st'.
  assert (Hb : bound out (edits t nts (map (pair out) ports) st)).
  { revert st Hbound. induction ports as [| p ports IH]; intros st Hbound;
      [exact Hbound |].
    apply (IH (onChange t nts out p st)).
    apply onChange_keeps_bound; assumption. }
  split; [exact Hb |].
  destruct Hb as (s & _ & Hl & _).
  intros p. unfold reachable, port_taken. rewrite Hl. cbn.
  apply orb_false_r.
Qed.

(** X20. A port that binds but cannot be saved: the new server is closed and the
    old one listens on the old port again, the field shows the old port and
    the error, and the settings in memory keep the new port. *)
Theorem failed_save_keeps_the_new_port_in_memory :
  forall (out : Outside) (st : State) (old : nat) (p1 p2 : number)
         (err : NodeError),
    server st = Some old ->
    listening st = [(old, p1)] ->
    settings_port st = p1 ->
    bind_error out p1 = None ->
    bind_error out p2 = None ->
    validatePort t p2 = None ->
    saveData_error out = Some err ->
    let st' := onChange t nts out p2 st in
    server st' = Some old
    /\ listening st' = [(old, p1)]
    /\ (forall p, reachable p st' = number_eqb p1 p)
    /\ settings_port st' = p2
    /\ text_value st' = Some (nts p1)
    /\ portErrorEl st'
       = "⚠ " +:+
         (if String.eqb (code err) "EADDRINUSE" then
            t "settings.error.port_used" [("PORT", JNumber p2)]
          else
            t "settings.error.port_openfail"
              [("PORT", JNumber p2); ("MSG", JString (message err))]).
Proof.
  intros out st old p1 p2 err Hserver Hlisten Hport Hfree1 Hfree2 Hvalid Hsave
    st'.
  subst st'.
  destruct st as [port srv sockets count errorEl value].
  cbn in Hserver, Hlisten, Hport. subst port srv sockets.
  unfold onChange.
  rewrite (valid_port_is_a_number _ _ Hvalid), Hvalid.
  unfold createServer, listen, close, rollback.
  tab_step. rewrite Hfree2. tab_step. rewrite Hsave.
  unfold listen, close. tab_step. rewrite Hfree1. tab_step.
  repeat split. intros p. unfold reachable. tab_step. apply orb_false_r.
Qed.

(** X21. An input that is no integer between 1024 and 65535 stops the callback
    at its first test, as long as the messages of the two errors are not
    empty: nothing is closed, created or bound, and the port of the
    settings stays. Only the inline error changes, and it is not empty. *)
Theorem refused_port_input_changes_nothing :
  forall (out : Outside) (parsed : number) (st : State),
    t "settings.error.port_is_int" [] <> "" ->
    (forall args, t "settings.error.port_out_range" args <> "") ->
    ~ (exists z : Z, is_integer_value parsed z /\ (1024 <= z <= 65535)%Z) ->
    let st' := onChange t nts out parsed st in
    server st' = server st
    /\ listening st' = listening st
    /\ created st' = created st
    /\ settings_port st' = settings_port st
    /\ text_value st' = text_value st
    /\ portErrorEl st' <> "".
Proof.
  intros out parsed st Hint Hrange Hout st'. subst st'.
  assert (Hrefused :
            truthy (validatePort t (if isNaN parsed then of_Z (-1) else parsed))
            = true).
  { destruct (validatePort t (if isNaN parsed then of_Z (-1) else parsed))
      as [msg |] eqn:Hv.
    - cbn. apply negb_true_iff. apply String.eqb_neq.
      unfold validatePort in Hv.
      destruct (negb _); [injection Hv as <-; exact Hint |].
      destruct (_ || _); [injection Hv as <-; apply Hrange | discriminate].
    - exfalso. apply Hout.
      apply validatePort_None in Hv as (z & Hz & Hr).
      destruct parsed as [| neg | q]; [| exact (ex_intro _ z (conj Hz Hr)) ..].
      cbn [isNaN] in Hz.
      assert (Hm : is_integer_value (of_Z (-1)) (-1)%Z) by (cbn; reflexivity).
      rewrite (is_integer_value_unique _ _ _ Hz Hm) in Hr. lia. }
  unfold onChange. rewrite Hrefused. cbn.
  repeat split.
  destruct (validatePort t _); discriminate.
Qed.

End Listener.

(** ** The further properties at concrete inputs *)

Section FurtherExamples.
Import Js Settings LoggingServer Props Str FileNames Main NameProps LogProps.
#[local] Open Scope nat_scope.

(** A name typed without the extension, with spaces around it. *)
Lemma name_without_extension_round_trip_witness :
  has_md (trim "  Daily log ") = false
  /\ logFileUserPref (set_logFileName "  Daily log " (plugin_with "" ∅))
     = "Daily log"
  /\ logFileName (set_logFileName "  Daily log " (plugin_with "" ∅))
     = "Daily log.md".
Proof.
  split; [reflexivity |].
  destruct (name_without_extension_round_trip "  Daily log "
              (plugin_with "" ∅) eq_refl) as (Hpref & Hname & _).
  split; [exact Hpref | exact Hname].
Defined.

(** A name typed with the extension in capitals. *)
Lemma name_with_extension_is_normalised_witness :
  trim "Log.MD " = "Log" +:+ ".MD"
  /\ toLowerCase ".MD" = ".md"
  /\ getLogFileNameFrom "Log.MD " = "Log.MD"
  /\ logFileName (set_logFileName "Log.MD " (plugin_with "" ∅)) = "Log.md".
Proof.
  split; [reflexivity |]. split; [reflexivity |].
  destruct (name_with_extension_is_normalised "Log.MD " "Log" ".MD"
              (plugin_with "" ∅) eq_refl eq_refl) as (Hcomputed & _ & _ & Hused).
  split; [exact Hcomputed | exact (Hused eq_refl eq_refl)].
Defined.

(** [cats] when the parent folder of the log file is missing, and again
    once the log file name is [SearchLog.md]. *)
Lemma rejected_commit_can_be_retried_witness :
  is_event cats "cats" "https://x/?q=cats" (of_Z 1700000000000)
  /\ commit_rejects orphan fresh = true
  /\ commit_rejects appending fresh = false
  /\ status (handle decimal orphan (post_log (Json cats)) fresh) = Some 400
  /\ writes (effects (handle decimal appending (post_log (Json cats))
                        (after (handle decimal orphan (post_log (Json cats))
                                  fresh))))
     = 1.
Proof.
  assert (Hev : is_event cats "cats" "https://x/?q=cats" (of_Z 1700000000000))
    by (eexists; repeat split).
  split; [exact Hev |]. split; [reflexivity |]. split; [reflexivity |].
  assert (Hnot : JString "cats" ∉ recentQueries fresh)
    by (intros Hin; apply elem_of_nil in Hin; exact Hin).
  assert (Hfile : vault fresh !! getLogFileName appending <> Some TFolder)
    by discriminate.
  destruct (rejected_commit_can_be_retried decimal orphan appending cats
              "cats" _ _ fresh Hev Hnot eq_refl eq_refl Hfile)
    as (Hstatus & _ & _ & _ & Hwrites & _).
  split; [exact Hstatus | exact Hwrites].
Defined.

Lemma four_distinct : NoDup (queries four).
Proof.
  repeat (apply NoDup_cons_2;
          [intros Hin;
           repeat (apply elem_of_cons in Hin as [Hin | Hin];
                   [discriminate |]);
           apply elem_of_nil in Hin; exact Hin |]).
  apply NoDup_nil_2.
Defined.

(** Four distinct queries from the empty buffer: the first has left it. *)
Lemma buffer_holds_the_last_three_witness :
  recentQueries fresh = []
  /\ recentQueries (run decimal (posts appending four) fresh)
     = [JString "b"; JString "c"; JString "d"]
  /\ treated_as_duplicate (run decimal (posts appending four) fresh)
       (post_log (Json (event_of "a")))
     = false.
Proof.
  split; [reflexivity |].
  assert (Hsends : Forall2 (fun x q => sends x.2 q /\ settles x.1)
                     (posts appending four) (queries four)).
  { repeat constructor;
      try (eexists _, _, _; split; [reflexivity |]; eexists; repeat split). }
  destruct (buffer_holds_the_last_three decimal (posts appending four)
              (queries four) fresh Hsends four_distinct eq_refl)
    as [Hbuf Hdup].
  split; [exact Hbuf |].
  apply not_true_iff_false. intros Htrue.
  assert (Hev : is_event (event_of "a") "a" "https://x/?q="
                  (of_Z 1700000000000))
    by (eexists; repeat split).
  apply (Hdup _ _ _ _ Hev) in Htrue.
  repeat (apply elem_of_cons in Htrue as [Htrue | Htrue]; [discriminate |]).
  apply elem_of_nil in Htrue. exact Htrue.
Defined.

(** Four events in prepend mode on a note that holds one line: the newest
    is on top and the old line at the bottom. *)
Lemma lines_are_kept_in_order_witness :
  settles prepending
  /\ four <> []
  /\ vault (run decimal (posts prepending four) (with_note ("old" +:+ LF)))
       !! "SearchLog.md"
     = Some (TFile (text (rev (lines decimal four)) +:+ "old" +:+ LF)).
Proof.
  assert (Hsettle : settles prepending) by (intros op; reflexivity).
  split; [exact Hsettle |]. split; [discriminate |].
  assert (Hnew : Forall (fun q => JString q ∉ recentQueries
                                    (with_note ("old" +:+ LF)))
                   (queries four)).
  { repeat constructor; intros Hin; apply elem_of_nil in Hin; exact Hin. }
  assert (Hfile : vault (with_note ("old" +:+ LF)) !! getLogFileName prepending
                  <> Some TFolder) by discriminate.
  assert (Hsome : four <> []) by discriminate.
  exact (lines_are_kept_in_order decimal prepending four
           (with_note ("old" +:+ LF)) Hsettle four_distinct Hnew Hfile Hsome).
Defined.

(** The event [listed], whose query is an array, sent twice. *)
Lemma object_query_is_never_a_duplicate_witness :
  by_reference (JArray [JString "cats"; JString "dogs"]) = true
  /\ line_of decimal (JNumber (of_Z 1700000000000))
       (JArray [JString "cats"; JString "dogs"]) (JString "https://x/?q=cats")
     = Some (event_line decimal (of_Z 1700000000000) "cats,dogs"
               "https://x/?q=cats")
  /\ writes (effects (handle decimal appending (post_log (Json listed)) fresh))
     = 1
  /\ writes (effects (handle decimal appending (post_log (Json listed))
                        (after (handle decimal appending
                                  (post_log (Json listed)) fresh))))
     = 1.
Proof.
  split; [reflexivity |]. split; [reflexivity |].
  assert (Hsettle : settles appending) by (intros op; reflexivity).
  assert (Hfile : vault fresh !! getLogFileName appending <> Some TFolder)
    by discriminate.
  destruct (object_query_is_never_a_duplicate decimal appending listed
              _ _ _ _ fresh eq_refl eq_refl eq_refl Hsettle Hfile)
    as (_ & _ & Hfirst & _ & _ & Hsecond & _).
  split; [exact Hfirst | exact Hsecond].
Defined.

(** The default name in an empty vault, and the first event. *)
Lemma validated_name_is_written_witness :
  validateLogFileName untranslated (plugin_with "SearchLog" ∅)
    (logFileName (plugin_with "SearchLog" ∅)) = None
  /\ getLogFileName appending = logFileName (plugin_with "SearchLog" ∅)
  /\ status (handle decimal appending (post_log (Json cats)) fresh) = Some 200
  /\ writes (effects (handle decimal appending (post_log (Json cats)) fresh))
     = 1.
Proof.
  split; [reflexivity |]. split; [reflexivity |].
  assert (Hsettle : settles appending) by (intros op; reflexivity).
  assert (Hev : is_event cats "cats" "https://x/?q=cats" (of_Z 1700000000000))
    by (eexists; repeat split).
  assert (Hnot : JString "cats" ∉ recentQueries fresh)
    by (intros Hin; apply elem_of_nil in Hin; exact Hin).
  assert (Hvalid : validateLogFileName untranslated (plugin_with "SearchLog" ∅)
                     (logFileName (plugin_with "SearchLog" ∅)) = None)
    by reflexivity.
  assert (Hname : getLogFileName appending
                  = logFileName (plugin_with "SearchLog" ∅))
    by reflexivity.
  destruct (validated_name_is_written untranslated decimal
              (plugin_with "SearchLog" ∅) appending cats "cats" _ _ fresh
              Hvalid eq_refl Hname Hsettle Hev Hnot)
    as (Hstatus & Hwrites & _).
  split; [exact Hstatus | exact Hwrites].
Defined.

(** A load with the default name in an empty vault: the note is created,
    empty. *)
Lemma after_load_the_note_exists_witness :
  validateLogFileName untranslated (plugin_with "SearchLog" ∅)
    (logFileName (plugin_with "SearchLog" ∅)) = None
  /\ exists data,
       files (fst (onLayoutReady untranslated port_3000_taken false
                     (plugin_with "SearchLog" ∅) unloaded))
         !! "SearchLog.md" = Some (TFile data)
       /\ data = "".
Proof.
  split; [reflexivity |].
  assert (Hvalid : validateLogFileName untranslated (plugin_with "SearchLog" ∅)
                     (logFileName (plugin_with "SearchLog" ∅)) = None)
    by reflexivity.
  destruct (after_load_the_note_exists untranslated decimal port_3000_taken
              (plugin_with "SearchLog" ∅) unloaded Hvalid)
    as (_ & (data & Hnote & Hempty) & _).
  exists data. split; [exact Hnote | exact (Hempty eq_refl)].
Defined.

(** A load, an edit to a port that another process holds, an edit to a free
    port, and the unload. *)
Lemma unload_leaves_no_listener_witness :
  SettingTab.listening unloaded = []
  /\ SettingTab.listening
       (SettingTab.onunload
          (edits untranslated decimal
             [(port_3000_taken, of_Z 3000); (port_3000_taken, of_Z 8080)]
             (SettingTab.onload port_3000_taken unloaded)))
     = [].
Proof.
  split; [reflexivity |].
  destruct (unload_leaves_no_listener untranslated decimal port_3000_taken
              [(port_3000_taken, of_Z 3000); (port_3000_taken, of_Z 8080)]
              unloaded eq_refl)
    as (_ & _ & Hnone & _).
  exact Hnone.
Defined.

Lemma loaded_is_bound : bound port_3000_taken loaded.
Proof. exists 0. repeat split. Defined.

(** The same two edits, seen from the service. *)
Lemma edits_keep_the_plugin_bound_witness :
  SettingTab.saveData_error port_3000_taken = None
  /\ bound port_3000_taken loaded
  /\ SettingTab.reachable (of_Z 8080)
       (edits untranslated decimal
          (map (pair port_3000_taken) [of_Z 3000; of_Z 8080]) loaded)
     = true.
Proof.
  split; [reflexivity |]. split; [exact loaded_is_bound |].
  destruct (edits_keep_the_plugin_bound untranslated decimal port_3000_taken
              [of_Z 3000; of_Z 8080] loaded eq_refl loaded_is_bound)
    as [_ Hreach].
  rewrite Hreach. reflexivity.
Defined.

(** The port field is set to 8080, which binds, and [saveData] rejects. *)
Lemma failed_save_keeps_the_new_port_in_memory_witness :
  SettingTab.saveData_error save_fails
  = Some {| SettingTab.code := "EACCES";
            SettingTab.message := "permission denied" |}
  /\ validatePort untranslated (of_Z 8080) = None
  /\ SettingTab.listening
       (SettingTab.onChange untranslated decimal save_fails (of_Z 8080) loaded)
     = [(0, of_Z 27123)]
  /\ SettingTab.settings_port
       (SettingTab.onChange untranslated decimal save_fails (of_Z 8080) loaded)
     = of_Z 8080.
Proof.
  split; [reflexivity |]. split; [reflexivity |].
  destruct (failed_save_keeps_the_new_port_in_memory untranslated decimal
              save_fails loaded 0 (of_Z 27123) (of_Z 8080) _
              eq_refl eq_refl eq_refl eq_refl eq_refl eq_refl eq_refl)
    as (_ & Hlisten & _ & Hport & _).
  split; [exact Hlisten | exact Hport].
Defined.

(** The port field holds no number. *)
Lemma refused_port_input_changes_nothing_witness :
  untranslated "settings.error.port_is_int" [] <> ""
  /\ SettingTab.listening
       (SettingTab.onChange untranslated decimal port_3000_taken NaN loaded)
     = SettingTab.listening loaded
  /\ SettingTab.portErrorEl
       (SettingTab.onChange untranslated decimal port_3000_taken NaN loaded)
     <> "".
Proof.
  assert (Hint : untranslated "settings.error.port_is_int" [] <> "")
    by discriminate.
  split; [exact Hint |].
  assert (Hrange : forall args,
             untranslated "settings.error.port_out_range" args <> "")
    by (intros args; discriminate).
  assert (Hout : ~ (exists z : Z, is_integer_value NaN z
                                  /\ (1024 <= z <= 65535)%Z))
    by (intros (z & Hz & _); exact Hz).
  destruct (refused_port_input_changes_nothing untranslated decimal
              port_3000_taken NaN loaded Hint Hrange Hout)
    as (_ & Hlisten & _ & _ & _ & Herror).
  split; [exact Hlisten | exact Herror].
Defined.

End FurtherExamples.
